(** * Staged category filter ([PineconeResultFilter.filter_by_categories])

    A shallow embedding of [src/search/pinecone_result_filter.py] and the
    properties of its staged filtering pipeline.

    Modelling choices.
    - Similarity scores are Python floats; the program never does arithmetic
      on them, it only compares them with [>] and sorts by them.  A float
      is embedded by what comparisons can tell of it: a rational value, an
      infinity, or NaN, which compares false with everything.
    - [sorted] is a builtin.  What it returns is fixed by the language when
      the keys are totally ordered (the stable sort); with a NaN key it
      depends on the implementation and is only known to be a rearrangement
      of its input.  The filter takes the builtin as a parameter with this
      contract, as it takes the searcher.
    - The searcher is an external collaborator.  It is a function of the
      history of calls issued so far and of the current call, so that any
      deterministic sequence of responses can be supplied.
    - Python exceptions ([KeyError]) are an explicit outcome.
    - The calls issued to the searcher are recorded in a trace, oldest
      first, threaded through the program. *)

From Stdlib Require Import QArith ZArith Sorting.Sorted.
From stdpp Require Import gmap strings list fin_maps sorting.

Local Open Scope string_scope.
Local Open Scope Z_scope.

(** ** Data model *)

(** [List[float]]: a query embedding, passed through to the searcher. *)
Definition embedding : Type := list Q.

(** A metadata filter specification ([Dict[str, Any]]): opaque to the
    filter, only its truthiness (non-emptiness) is inspected. *)
Definition filter_spec : Type := list (string * string).

(** A Python float, as far as [<] and [>] can tell: two floats with the
    same rational value compare equal (so do [0.0] and [-0.0]), and NaN
    is neither below nor above anything. *)
Inductive pyfloat : Type :=
| NegInf
| Num (q : Q)
| PosInf
| NaN.

(** A record of a searcher response: a dict whose ["mb_sn"] and ["score"]
    keys may each be absent. *)
Record result_record : Type := mk_record {
  rec_mb_sn : option string;
  rec_score : option pyfloat
}.

(** An entry of the returned list: [{"mb_sn": ..., "score": ...}]. *)
Record panel : Type := mk_panel {
  mb_sn : string;
  score : pyfloat
}.

(** The keyword arguments of one [search_by_category] call.
    [metadata_filter = None] means that the argument was not passed. *)
Record search_call : Type := mk_call {
  query_embedding : embedding;
  category : string;
  top_k : Z;
  filter_mb_sns : option (list string);
  metadata_filter : option filter_spec
}.

Definition trace : Type := list search_call.

(** [self.searcher]: history of earlier calls, current call, response. *)
Definition searcher_t : Type := trace -> search_call -> list result_record.

Inductive exn : Type :=
| KeyError (key : string)
| IndexError.

Inductive outcome (A : Type) : Type :=
| Returned (a : A)
| Raised (e : exn).
Arguments Returned {A} a.
Arguments Raised {A} e.

(** ** Python primitives used by the filter *)

(** [bool(s)] for a string. *)
Definition str_truthy (s : string) : bool := negb (String.eqb s "").

(** [bool(r.get("mb_sn"))]. *)
Definition id_truthy (r : result_record) : bool :=
  match rec_mb_sn r with
  | Some s => str_truthy s
  | None => false
  end.

(** [r.get("mb_sn", "")] and [r.get("score", 0.0)]. *)
Definition get_mb_sn (r : result_record) : string := default "" (rec_mb_sn r).
Definition get_score (r : result_record) : pyfloat :=
  default (Num 0) (rec_score r).

(** [r["mb_sn"]] and [r["score"]]: subscripting raises on a missing key. *)
Definition subscript_mb_sn (r : result_record) : outcome string :=
  match rec_mb_sn r with
  | Some s => Returned s
  | None => Raised (KeyError "mb_sn")
  end.

Definition subscript_score (r : result_record) : outcome pyfloat :=
  match rec_score r with
  | Some s => Returned s
  | None => Raised (KeyError "score")
  end.

(** [a < b], [a > b] and [a >= b] on floats. *)
Definition float_ltb (a b : pyfloat) : bool :=
  match a, b with
  | NaN, _ | _, NaN => false
  | NegInf, NegInf => false
  | NegInf, _ => true
  | _, NegInf => false
  | PosInf, _ => false
  | Num _, PosInf => true
  | Num x, Num y => negb (Qle_bool y x)
  end.

Definition float_gtb (a b : pyfloat) : bool := float_ltb b a.

Definition float_geb (a b : pyfloat) : bool :=
  match a, b with
  | NaN, _ | _, NaN => false
  | _, _ => negb (float_ltb a b)
  end.

(** [math.isnan(a)] *)
Definition is_nan (a : pyfloat) : bool :=
  match a with
  | NaN => true
  | _ => false
  end.

(** [x in l] for a list of identifiers. *)
Definition mem (x : string) (l : list string) : bool := bool_decide (x ∈ l).

(** [l[:n]] with Python's treatment of a negative bound. *)
Definition slice_to {A : Type} (n : Z) (l : list A) : list A :=
  if 0 <=? n then take (Z.to_nat n) l
  else take (length l - Z.to_nat (- n))%nat l.

(** The stable sort in descending key order (elements with equal keys
    keep their original relative order), by insertion with [<] only: what
    [sorted(l, key=key, reverse=True)] returns when no key is NaN. *)
Fixpoint insert_desc {A : Type} (key : A -> pyfloat) (x : A) (l : list A)
  : list A :=
  match l with
  | [] => [x]
  | y :: l' =>
      if float_ltb (key x) (key y) then y :: insert_desc key x l'
      else x :: y :: l'
  end.

Definition sorted_desc {A : Type} (key : A -> pyfloat) (l : list A) : list A :=
  foldr (insert_desc key) [] l.

(** The builtin [sorted(l, key=key, reverse=True)] on float keys: a
    rearrangement of [l] in every case, and the stable descending sort
    when no key is NaN. *)
Record py_sorter : Type := mk_sorter {
  py_sorted : forall A : Type, (A -> pyfloat) -> list A -> list A;
  py_sorted_perm :
    forall (A : Type) (key : A -> pyfloat) (l : list A),
      py_sorted A key l ≡ₚ l;
  py_sorted_total :
    forall (A : Type) (key : A -> pyfloat) (l : list A),
      Forall (fun x => is_nan (key x) = false) l ->
      py_sorted A key l = sorted_desc key l
}.
Arguments py_sorted _ {A} key l.

(** The stable sort used for every input is one such builtin. *)
Definition stable_sorter : py_sorter.
Proof.
  refine {| py_sorted := @sorted_desc |}.
  - intros A key l. induction l as [| x l IH]; simpl; [done |].
    assert (Hins : forall k, insert_desc key x k ≡ₚ x :: k).
    { induction k as [| y k IHk]; simpl; [done |].
      destruct (float_ltb (key x) (key y)); [| done].
      rewrite IHk. apply Permutation_swap. }
    by rewrite Hins, IH.
  - reflexivity.
Defined.

(** [desc key a b]: [a] may stand before [b] in a list that is descending
    by [key], that is [key a >= key b]. *)
Definition desc {A : Type} (key : A -> pyfloat) (a b : A) : Prop :=
  float_geb (key a) (key b) = true.

(** [list(OrderedDict.fromkeys(l))]: first occurrences, in order. *)
Definition fromkeys (l : list string) : list string :=
  fold_left (fun d k => if mem k d then d else (d ++ [k])%list) l [].

(** *** Score maps

    A Python dict from identifier to score.  Iteration order matters for the
    stable sort, so it is an association list in insertion order: assigning
    to an existing key keeps the key's position. *)
Definition score_map : Type := list (string * pyfloat).

Fixpoint dict_get (d : score_map) (k : string) : option pyfloat :=
  match d with
  | [] => None
  | (k', v) :: d' => if String.eqb k' k then Some v else dict_get d' k
  end.

Fixpoint dict_set (d : score_map) (k : string) (v : pyfloat) : score_map :=
  match d with
  | [] => [(k, v)]
  | (k', v') :: d' =>
      if String.eqb k' k then (k', v) :: d' else (k', v') :: dict_set d' k v
  end.

(** [if k not in d or s > d[k]: d[k] = s]. *)
Definition keep_best (d : score_map) (k : string) (s : pyfloat) : score_map :=
  match dict_get d k with
  | None => dict_set d k s
  | Some cur => if float_gtb s cur then dict_set d k s else d
  end.

(** The loop shared by all four stages:
    [for r in results: mb_sn = r.get("mb_sn", ""); if guard(mb_sn): ...],
    keeping the best score per identifier. *)
Definition collect_best (guard : string -> bool) (results : list result_record)
  : score_map :=
  fold_left
    (fun d r =>
       let mb_sn := get_mb_sn r in
       if guard mb_sn then keep_best d mb_sn (get_score r) else d)
    results [].

(** [sorted(d.items(), key=lambda x: x[1], reverse=True)]. *)
Definition sorted_items (sorter : py_sorter) (d : score_map)
  : list (string * pyfloat) :=
  py_sorted sorter snd d.

(** [(topic_filters or {}).get(category, {})]. *)
Definition get_filter (topic_filters : option (gmap string filter_spec))
    (c : string) : filter_spec :=
  default [] (default ∅ topic_filters !! c).

(** [bool(f)] for a filter specification. *)
Definition filter_truthy (f : filter_spec) : bool :=
  match f with
  | [] => false
  | _ :: _ => true
  end.

(** ** The effect monad: exceptions and the trace of searcher calls *)

Definition M (A : Type) : Type := trace -> outcome A * trace.

Definition ret {A : Type} (a : A) : M A := fun tr => (Returned a, tr).

Definition bind {A B : Type} (m : M A) (k : A -> M B) : M B :=
  fun tr =>
    match m tr with
    | (Returned a, tr') => k a tr'
    | (Raised e, tr') => (Raised e, tr')
    end.

Definition lift {A : Type} (o : outcome A) : M A := fun tr => (o, tr).

Notation "'let*' x ':=' m 'in' k" := (bind m (fun x => k))
  (at level 10, x name, m at level 100, k at level 200).

(** Evaluating a list comprehension whose element expression may raise. *)
Fixpoint map_outcome {A B : Type} (f : A -> outcome B) (l : list A)
  : outcome (list B) :=
  match l with
  | [] => Returned []
  | x :: l' =>
      match f x with
      | Raised e => Raised e
      | Returned y =>
          match map_outcome f l' with
          | Raised e => Raised e
          | Returned ys => Returned (y :: ys)
          end
      end
  end.

(** ** The filter *)

Section Filter.

(** The builtin [sorted] *)
Variable sorter : py_sorter.

(** [self.searcher] *)
Variable searcher : searcher_t.

(** [self.searcher.search_by_category(...)]: record the call, return the
    collaborator's response. *)
Definition search_by_category (c : search_call) : M (list result_record) :=
  fun tr => (Returned (searcher tr c), (tr ++ [c])%list).

Variable embeddings : gmap string embedding.
Variable category_order : list string.
Variable final_count : option Z.
Variable topic_filters : option (gmap string filter_spec).

(** Lines 52-64: the initial search width. *)
Definition initial_count (has_metadata_filter : bool) : Z :=
  match final_count with
  | None => if has_metadata_filter then 10000 else 10000
  | Some fc => if has_metadata_filter then 10000 else Z.max (fc * 10) 2000
  end.

(** Lines 76-94: seeding with a metadata filter. *)
Definition seed_filtered (first_results : list result_record) : list string :=
  let filtered_mb_sn_scores := collect_best str_truthy first_results in
  let sorted_filtered := sorted_items sorter filtered_mb_sn_scores in
  map fst sorted_filtered.

(** Lines 99-107: seeding without a metadata filter.  The sort key
    [x["score"]] is evaluated for every kept record before sorting. *)
Definition seed_unfiltered (first_results : list result_record)
  : outcome (list string) :=
  let kept := filter (fun r => id_truthy r = true) first_results in
  match map_outcome (fun r => match subscript_score r with
                              | Returned s => Returned (r, s)
                              | Raised e => Raised e
                              end) kept with
  | Raised e => Raised e
  | Returned keyed =>
      let first_sorted := map fst (py_sorted sorter snd keyed) in
      match map_outcome subscript_mb_sn first_sorted with
      | Raised e => Raised e
      | Returned ids =>
          let candidate_mb_sns := fromkeys ids in
          match final_count with
          | Some fc =>
              Returned (slice_to (Z.max (fc * 10) 10000) candidate_mb_sns)
          | None => Returned candidate_mb_sns
          end
      end
  end.

(** Lines 41-107, after the seed embedding was found. *)
Definition seed (first_category : string) (first_embedding : embedding)
  : M (list string) :=
  let first_filter := get_filter topic_filters first_category in
  let has_metadata_filter := filter_truthy first_filter in
  let* first_results :=
    search_by_category
      {| query_embedding := first_embedding;
         category := first_category;
         top_k := initial_count has_metadata_filter;
         filter_mb_sns := None;
         metadata_filter := Some first_filter |} in
  if has_metadata_filter then ret (seed_filtered first_results)
  else lift (seed_unfiltered first_results).

(** Lines 129-137: the search width of a refinement stage. *)
Definition search_count (has_category_filter : bool)
    (candidate_mb_sns : list string) : Z :=
  let n := Z.of_nat (length candidate_mb_sns) in
  let search_count :=
    match final_count with
    | None => if has_category_filter then Z.min (n * 3) 10000
              else Z.min (n * 2) 10000
    | Some _ => Z.min (n * 2) 10000
    end in
  Z.max search_count 1.

(** Lines 150-165: re-scoring under a metadata filter.  In the
    comprehension of line 150 the guard [r.get("mb_sn") in candidate_mb_sns]
    holds only for records that have the key (the candidates are strings),
    so the subscript [r["mb_sn"]] it protects cannot raise. *)
Definition rescore_filtered (candidate_mb_sns : list string)
    (results : list result_record) : list string :=
  let filtered_mb_sns : gset string :=
    list_to_set
      (omap (fun r =>
               match rec_mb_sn r with
               | Some m => if mem m candidate_mb_sns then Some m else None
               | None => None
               end) results) in
  let mb_sn_scores :=
    collect_best (fun m => bool_decide (m ∈ filtered_mb_sns)) results in
  let sorted_mb_sns := sorted_items sorter mb_sn_scores in
  map fst sorted_mb_sns.

(** Lines 169-186: re-scoring without a metadata filter. *)
Definition rescore_unfiltered (candidate_mb_sns : list string)
    (results : list result_record) : list string :=
  let mb_sn_scores :=
    collect_best (fun m => mem m candidate_mb_sns) results in
  let sorted_mb_sns := sorted_items sorter mb_sn_scores in
  match final_count with
  | None => map fst (slice_to (Z.of_nat (length sorted_mb_sns)) sorted_mb_sns)
  | Some fc => map fst (slice_to (Z.max (fc * 3) 10000) sorted_mb_sns)
  end.

(** Lines 120-186: one refinement stage that is not skipped. *)
Definition refine_stage (category : string) (embedding : embedding)
    (candidate_mb_sns : list string) : M (list string) :=
  let category_filter := get_filter topic_filters category in
  let has_category_filter := filter_truthy category_filter in
  let* results :=
    search_by_category
      {| query_embedding := embedding;
         category := category;
         top_k := search_count has_category_filter candidate_mb_sns;
         filter_mb_sns := Some candidate_mb_sns;
         metadata_filter := Some category_filter |} in
  if has_category_filter then ret (rescore_filtered candidate_mb_sns results)
  else ret (rescore_unfiltered candidate_mb_sns results).

(** Lines 114-186: the loop over [category_order[1:]], with its
    [continue] (missing embedding) and [break] (no candidate left). *)
Fixpoint refine_loop (categories : list string)
    (candidate_mb_sns : list string) : M (list string) :=
  match categories with
  | [] => ret candidate_mb_sns
  | category :: rest =>
      match embeddings !! category with
      | None => refine_loop rest candidate_mb_sns
      | Some embedding =>
          if (length candidate_mb_sns =? 0)%nat then ret candidate_mb_sns
          else
            let* next := refine_stage category embedding candidate_mb_sns in
            refine_loop rest next
      end
  end.

(** Lines 196-205: the score map of the final response, sorted. *)
Definition final_scores (candidate_mb_sns : list string)
    (final_results : list result_record) : score_map :=
  collect_best (fun m => mem m candidate_mb_sns) final_results.

Definition final_sorted (candidate_mb_sns : list string)
    (final_results : list result_record) : list (string * pyfloat) :=
  sorted_items sorter (final_scores candidate_mb_sns final_results).

(** Lines 207-219: truncation and emission of the pairs. *)
Definition emit (candidate_mb_sns : list string)
    (final_results : list result_record) : list panel :=
  let scores := final_scores candidate_mb_sns final_results in
  let final_mb_sns := map fst (final_sorted candidate_mb_sns final_results) in
  let final_mb_sns :=
    match final_count with
    | Some fc => slice_to fc final_mb_sns
    | None => final_mb_sns
    end in
  map (fun m => {| mb_sn := m;
                   score := default (Num 0) (dict_get scores m) |})
      final_mb_sns.

(** [embeddings[category_order[-1]]] *)
Definition last_embedding : outcome (string * embedding) :=
  match last category_order with
  | None => Raised (KeyError "")
  | Some c =>
      match embeddings !! c with
      | Some e => Returned (c, e)
      | None => Raised (KeyError c)
      end
  end.

(** Lines 189-221: the final ranking. *)
Definition final_ranking (candidate_mb_sns : list string) : M (list panel) :=
  let* ce := lift last_embedding in
  let* final_results :=
    search_by_category
      {| query_embedding := snd ce;
         category := fst ce;
         top_k := Z.of_nat (length candidate_mb_sns);
         filter_mb_sns := Some candidate_mb_sns;
         metadata_filter := None |} in
  ret (emit candidate_mb_sns final_results).

(** Lines 35-221. *)
Definition filter_by_categories : M (list panel) :=
  match category_order with
  | [] => ret []
  | first_category :: rest =>
      match embeddings !! first_category with
      | None => ret []
      | Some first_embedding =>
          let* candidate_mb_sns := seed first_category first_embedding in
          if (length candidate_mb_sns =? 0)%nat then ret []
          else
            let* candidate_mb_sns := refine_loop rest candidate_mb_sns in
            final_ranking candidate_mb_sns
      end
  end.

(** *** The calls issued, by stage *)

(** The call of the seeding stage. *)
Definition seed_call (c : string) (e : embedding) : search_call :=
  {| query_embedding := e;
     category := c;
     top_k := initial_count (filter_truthy (get_filter topic_filters c));
     filter_mb_sns := None;
     metadata_filter := Some (get_filter topic_filters c) |}.

(** The call a refinement stage issues for [category]. *)
Definition stage_call (category : string) (embedding : embedding)
    (cands : list string) : search_call :=
  {| query_embedding := embedding;
     category := category;
     top_k := search_count
                (filter_truthy (get_filter topic_filters category)) cands;
     filter_mb_sns := Some cands;
     metadata_filter := Some (get_filter topic_filters category) |}.

(** What every call issued by the refinement loop looks like. *)
Definition is_stage_call (c : search_call) : Prop :=
  exists cands,
    cands <> [] /\
    filter_mb_sns c = Some cands /\
    metadata_filter c = Some (get_filter topic_filters (category c)) /\
    top_k c = search_count
                (filter_truthy (get_filter topic_filters (category c))) cands.

(** The call of the final ranking. *)
Definition final_call (c : string) (e : embedding) (cands : list string)
  : search_call :=
  {| query_embedding := e;
     category := c;
     top_k := Z.of_nat (length cands);
     filter_mb_sns := Some cands;
     metadata_filter := None |}.

End Filter.

(** ** The ranked pairs as entries of the result *)

(** The entry emitted for a ranked pair. *)
Definition to_panel (p : string * pyfloat) : panel :=
  {| mb_sn := fst p; score := snd p |}.

(** [final_count] applied to the ranked pairs. *)
Definition truncate {A : Type} (final_count : option Z) (l : list A) : list A :=
  match final_count with
  | Some fc => slice_to fc l
  | None => l
  end.

(** ** The ranking behind unfiltered seeding *)

(** The records unfiltered seeding keeps (lines 99-100), each with the
    score it is sorted by. *)
Definition keyed_records (first_results : list result_record)
  : list (result_record * pyfloat) :=
  map (fun r => (r, get_score r))
      (filter (fun r => id_truthy r = true) first_results).

(** The identifiers of the kept records in descending score order, before
    duplicates are dropped (lines 99-104). *)
Definition ranked_ids (sorter : py_sorter)
    (first_results : list result_record) : list string :=
  map (fun p => get_mb_sn (fst p))
      (py_sorted sorter snd (keyed_records first_results)).

(** A record [r] names the identifier [id]. *)
Definition names (r : result_record) (id : string) : Prop :=
  rec_mb_sn r = Some id.

(** ** Fixtures: concrete collaborators and inputs *)

Definition hit (m : string) (s : Q) : result_record :=
  {| rec_mb_sn := Some m; rec_score := Some (Num s) |}.

Definition basic_embedding : embedding := [(1 # 2)%Q; (1 # 4)%Q].
Definition income_embedding : embedding := [(1 # 3)%Q; (2 # 3)%Q].

Definition demo_embeddings : gmap string embedding :=
  <["basic" := basic_embedding]> (<["income" := income_embedding]> ∅).

(** Only the seed embedding is known. *)
Definition seed_only_embeddings : gmap string embedding :=
  <["basic" := basic_embedding]> ∅.

(** A searcher answering by category, with duplicated identifiers, an
    identifier outside any allow-list, and records lacking a field. *)
Definition demo_searcher : searcher_t :=
  fun _ c =>
    if String.eqb (category c) "basic"
    then [hit "p1" (9 # 10); hit "p2" (8 # 10); hit "p3" (7 # 10);
          hit "p2" (85 # 100)]
    else [hit "p3" (6 # 10); hit "p1" (4 # 10); hit "p3" (65 # 100);
          hit "p9" (99 # 100);
          {| rec_mb_sn := None; rec_score := Some (Num (5 # 10)) |};
          {| rec_mb_sn := Some "p2"; rec_score := None |}].

(** A searcher whose second and later responses omit candidates. *)
Definition omitting_searcher : searcher_t :=
  fun tr _ =>
    match tr with
    | [] => [hit "p1" (9 # 10); hit "p2" (8 # 10); hit "p3" (7 # 10)]
    | _ :: _ => [hit "p1" (9 # 10)]
    end.

(** A searcher that finds candidates for the seed category only. *)
Definition seed_only_searcher : searcher_t :=
  fun _ c =>
    if String.eqb (category c) "basic" then [hit "p1" (9 # 10)] else [].

(** A searcher returning a record without a ["score"] field. *)
Definition scoreless_searcher : searcher_t :=
  fun _ _ => [{| rec_mb_sn := Some "p1"; rec_score := None |}].

(** A searcher whose later responses score ["p1"] with NaN. *)
Definition nan_searcher : searcher_t :=
  fun tr _ =>
    match tr with
    | [] => [hit "p1" (9 # 10); hit "p2" (8 # 10)]
    | _ :: _ => [{| rec_mb_sn := Some "p1"; rec_score := Some NaN |};
                 hit "p2" 1]
    end.

(** Embeddings for three categories. *)
Definition three_embeddings : gmap string embedding :=
  <["vehicle" := [(3 # 4)%Q]]> demo_embeddings.

(** [topic_filters] with a metadata filter for ["income"] only. *)
Definition age_filter : gmap string filter_spec :=
  <["income" := [("age_min", "30")]]> ∅.

(** * Properties *)

(** ** The primitives on small inputs *)

Example sorted_desc_stable :
  sorted_desc snd [("a", Num (1 # 2)); ("b", Num (9 # 10)); ("c", Num (1 # 2));
                   ("d", PosInf); ("e", Num (9 # 10))]
  = [("d", PosInf); ("b", Num (9 # 10)); ("e", Num (9 # 10));
     ("a", Num (1 # 2)); ("c", Num (1 # 2))].
Proof. reflexivity. Qed.

Example fromkeys_first_occurrences :
  fromkeys ["b"; "a"; "b"; "c"; "a"] = ["b"; "a"; "c"].
Proof. vm_compute. reflexivity. Qed.

Example slice_to_negative : slice_to (-1) [1; 2; 3] = [1; 2].
Proof. reflexivity. Qed.

Example slice_to_beyond : slice_to 5 [1; 2; 3] = [1; 2; 3].
Proof. reflexivity. Qed.

Example keep_best_in_place :
  keep_best [("a", Num (1 # 2)); ("b", Num (1 # 3))] "a" (Num (3 # 4))
  = [("a", Num (3 # 4)); ("b", Num (1 # 3))].
Proof. reflexivity. Qed.

Example keep_best_lower :
  keep_best [("a", Num (1 # 2)); ("b", Num (1 # 3))] "a" (Num (1 # 4))
  = [("a", Num (1 # 2)); ("b", Num (1 # 3))].
Proof. reflexivity. Qed.

Example keep_best_appends :
  keep_best [("a", Num (1 # 2))] "b" (Num (1 # 4))
  = [("a", Num (1 # 2)); ("b", Num (1 # 4))].
Proof. reflexivity. Qed.

(** A NaN that came first stays, a NaN that comes later is ignored:
    [score > cur] is false either way. *)
Example keep_best_nan_stays :
  keep_best [("a", NaN)] "a" (Num 1) = [("a", NaN)] /\
  keep_best [("a", Num 1)] "a" NaN = [("a", Num 1)].
Proof. split; reflexivity. Qed.

(** ** Comparing floats *)

Lemma Qle_bool_false (a b : Q) : Qle_bool a b = false -> Qle_bool b a = true.
Proof.
  intros Hf. apply Qle_bool_iff. destruct (Qlt_le_dec b a) as [Hlt | Hle].
  - apply Qlt_le_weak, Hlt.
  - apply Qle_bool_iff in Hle. congruence.
Qed.

Lemma Qle_bool_trans (a b c : Q) :
  Qle_bool a b = true -> Qle_bool b c = true -> Qle_bool a c = true.
Proof.
  rewrite !Qle_bool_iff. apply Qle_trans.
Qed.

Lemma float_geb_not_nan (a b : pyfloat) :
  float_geb a b = true -> is_nan a = false /\ is_nan b = false.
Proof. by destruct a, b. Qed.

Lemma float_geb_refl (a : pyfloat) : is_nan a = false -> float_geb a a = true.
Proof.
  destruct a as [| x | |]; simpl; try done.
  intros _. rewrite negb_involutive. apply Qle_bool_iff, Qle_refl.
Qed.

Lemma float_geb_trans (a b c : pyfloat) :
  float_geb a b = true -> float_geb b c = true -> float_geb a c = true.
Proof.
  destruct a as [| x | |], b as [| y | |], c as [| z | |]; simpl; try done.
  rewrite !negb_involutive. intros H1 H2. by apply (Qle_bool_trans z y x).
Qed.

(** [not (a < b)] is [a >= b] when neither is NaN. *)
Lemma float_not_ltb_geb (a b : pyfloat) :
  is_nan a = false -> is_nan b = false ->
  float_ltb a b = false -> float_geb a b = true.
Proof. destruct a, b; simpl; try done. by intros _ _ ->. Qed.

Lemma float_ltb_geb (a b : pyfloat) :
  float_ltb a b = true -> float_geb b a = true.
Proof.
  destruct a as [| x | |], b as [| y | |]; simpl; try done.
  rewrite negb_involutive. intros H. apply negb_true_iff in H.
  by apply Qle_bool_false.
Qed.

Lemma float_gtb_geb (a b : pyfloat) :
  float_gtb a b = true -> float_geb a b = true.
Proof. apply float_ltb_geb. Qed.

Lemma float_not_gtb_geb (a b : pyfloat) :
  is_nan a = false -> is_nan b = false ->
  float_gtb a b = false -> float_geb b a = true.
Proof. intros Ha Hb. by apply float_not_ltb_geb. Qed.

(** ** The stable descending sort *)

Section Sorting.

Context {A : Type} (key : A -> pyfloat).

Lemma insert_desc_perm (x : A) (l : list A) : insert_desc key x l ≡ₚ x :: l.
Proof.
  induction l as [| y l IH]; simpl; [done |].
  destruct (float_ltb (key x) (key y)); [| done].
  rewrite IH. apply Permutation_swap.
Qed.

Lemma sorted_desc_perm (l : list A) : sorted_desc key l ≡ₚ l.
Proof.
  induction l as [| x l IH]; simpl; [done |].
  rewrite insert_desc_perm. by rewrite IH.
Qed.

Lemma insert_desc_sorted (x : A) (l : list A) :
  is_nan (key x) = false ->
  Forall (fun y => is_nan (key y) = false) l ->
  StronglySorted (desc key) l ->
  StronglySorted (desc key) (insert_desc key x l).
Proof.
  intros Hx Hnan Hs. induction Hs as [| y l Hl IH Hy]; simpl.
  - repeat constructor.
  - apply Forall_cons in Hnan as [Hynan Hnan].
    destruct (float_ltb (key x) (key y)) eqn:Hc.
    + apply float_ltb_geb in Hc.
      constructor; [by apply IH |].
      rewrite insert_desc_perm. by constructor.
    + apply float_not_ltb_geb in Hc; [| done | done].
      constructor; [by constructor |].
      constructor; [exact Hc |].
      eapply Forall_impl; [exact Hy |].
      intros z Hz. unfold desc in *. by apply (float_geb_trans _ (key y)).
Qed.

(** Without NaN keys the stable sort returns a descending list. *)
Lemma sorted_desc_sorted (l : list A) :
  Forall (fun y => is_nan (key y) = false) l ->
  StronglySorted (desc key) (sorted_desc key l).
Proof.
  induction l as [| x l IH]; simpl; [constructor |].
  intros Hnan. apply Forall_cons in Hnan as [Hx Hnan].
  apply insert_desc_sorted; [done | by rewrite sorted_desc_perm | by apply IH].
Qed.

End Sorting.

(** * Properties that hold for every builtin [sorted] *)

Section Properties.

Variable sorter : py_sorter.

(** What the contract of the builtin gives. *)
Lemma py_sorted_elem {A : Type} (key : A -> pyfloat) (x : A) (l : list A) :
  x ∈ py_sorted sorter key l <-> x ∈ l.
Proof. by rewrite py_sorted_perm. Qed.

Lemma py_sorted_nil {A : Type} (key : A -> pyfloat) :
  py_sorted sorter key [] = [].
Proof. apply Permutation_nil_r, py_sorted_perm. Qed.

Lemma py_sorted_length {A : Type} (key : A -> pyfloat) (l : list A) :
  length (py_sorted sorter key l) = length l.
Proof. by rewrite py_sorted_perm. Qed.

Lemma py_sorted_sorted {A : Type} (key : A -> pyfloat) (l : list A) :
  Forall (fun y => is_nan (key y) = false) l ->
  StronglySorted (desc key) (py_sorted sorter key l).
Proof.
  intros Hnan. rewrite py_sorted_total by done. by apply sorted_desc_sorted.
Qed.

Lemma StronglySorted_take {A : Type} (R : A -> A -> Prop) (n : nat)
    (l : list A) :
  StronglySorted R l -> StronglySorted R (take n l).
Proof.
  intros Hl. revert n. induction Hl as [| x l Hl IH Hx]; intros [| n]; simpl;
    try constructor; [apply IH |].
  eapply Forall_forall. intros y Hy.
  eapply Forall_forall in Hx; [exact Hx |].
  by eapply subseteq_take.
Qed.

(** ** Slices *)

Lemma slice_to_prefix {A : Type} (n : Z) (l : list A) :
  exists m : nat, slice_to n l = take m l.
Proof. unfold slice_to. destruct (0 <=? n); eauto. Qed.

Lemma slice_to_fmap {A B : Type} (f : A -> B) (n : Z) (l : list A) :
  slice_to n (map f l) = map f (slice_to n l).
Proof.
  unfold slice_to. rewrite length_map.
  destruct (0 <=? n); by rewrite <- fmap_take.
Qed.

Lemma slice_to_subseteq {A : Type} (n : Z) (l : list A) (x : A) :
  x ∈ slice_to n l -> x ∈ l.
Proof.
  destruct (slice_to_prefix n l) as [m ->]. apply subseteq_take.
Qed.

Lemma slice_to_length_exact {A : Type} (k : Z) (l : list A) :
  0 <= k -> k < Z.of_nat (length l) ->
  Z.of_nat (length (slice_to k l)) = k.
Proof.
  intros H0 Hlt. unfold slice_to.
  destruct (0 <=? k) eqn:Hk; [| apply Z.leb_gt in Hk; lia].
  rewrite length_take. lia.
Qed.

(** ** Score maps *)

Lemma dict_get_None (d : score_map) (k : string) :
  dict_get d k = None <-> k ∉ map fst d.
Proof.
  induction d as [| [k' v] d IH]; simpl.
  - split; [intros _; apply not_elem_of_nil | done].
  - rewrite not_elem_of_cons. destruct (String.eqb_spec k' k) as [-> | Hne].
    + split; [done | intros [? _]; done].
    + rewrite IH. split; [intros ?; split; congruence | intros [_ ?]; done].
Qed.

Lemma dict_get_elem (d : score_map) (k : string) (v : pyfloat) :
  dict_get d k = Some v -> (k, v) ∈ d.
Proof.
  induction d as [| [k' v'] d IH]; simpl; [done |].
  destruct (String.eqb_spec k' k) as [-> | Hne].
  - intros [= ->]. apply elem_of_cons. by left.
  - intros H. apply elem_of_cons. right. by apply IH.
Qed.

Lemma dict_get_NoDup (d : score_map) (k : string) (v : pyfloat) :
  NoDup (map fst d) -> (k, v) ∈ d -> dict_get d k = Some v.
Proof.
  induction d as [| [k' v'] d IH]; simpl.
  - intros _ H. by apply elem_of_nil in H.
  - intros Hnd Hin. apply NoDup_cons in Hnd as [Hk' Hnd].
    apply elem_of_cons in Hin as [[= -> ->] | Hin].
    + by rewrite String.eqb_refl.
    + destruct (String.eqb_spec k' k) as [-> | Hne]; [| by apply IH].
      exfalso. apply Hk'. apply list_elem_of_fmap. by exists (k, v).
Qed.

Lemma dict_get_set (d : score_map) (k k' : string) (v : pyfloat) :
  dict_get (dict_set d k v) k' =
  if String.eqb k k' then Some v else dict_get d k'.
Proof.
  induction d as [| [k0 v0] d IH]; simpl; [done |].
  destruct (String.eqb_spec k0 k) as [-> | Hne]; simpl.
  - by destruct (String.eqb k k').
  - rewrite IH. destruct (String.eqb_spec k0 k') as [-> | Hne'];
      destruct (String.eqb_spec k k'); congruence.
Qed.

Lemma dict_set_keys_in (d : score_map) (k : string) (v : pyfloat) :
  k ∈ map fst d -> map fst (dict_set d k v) = map fst d.
Proof.
  induction d as [| [k0 v0] d IH]; simpl.
  - intros H. by apply elem_of_nil in H.
  - intros H. destruct (String.eqb_spec k0 k) as [-> | Hne]; simpl; [done |].
    f_equal. apply IH. apply elem_of_cons in H as [-> | H]; done.
Qed.

Lemma dict_set_new (d : score_map) (k : string) (v : pyfloat) :
  k ∉ map fst d -> dict_set d k v = (d ++ [(k, v)])%list.
Proof.
  induction d as [| [k0 v0] d IH]; simpl; [done |].
  intros H. apply not_elem_of_cons in H as [Hne H].
  destruct (String.eqb_spec k0 k) as [-> | _]; [done |].
  by rewrite IH.
Qed.

Lemma dict_set_keys (d : score_map) (k : string) (v : pyfloat) (x : string) :
  x ∈ map fst (dict_set d k v) <-> x = k \/ x ∈ map fst d.
Proof.
  destruct (decide (k ∈ map fst d)) as [Hin | Hnin].
  - rewrite dict_set_keys_in by done. split; [by right | intros [-> | ?]; done].
  - rewrite dict_set_new by done. rewrite map_app, elem_of_app. simpl.
    rewrite list_elem_of_singleton. tauto.
Qed.

Lemma dict_set_NoDup (d : score_map) (k : string) (v : pyfloat) :
  NoDup (map fst d) -> NoDup (map fst (dict_set d k v)).
Proof.
  intros Hnd. destruct (decide (k ∈ map fst d)) as [Hin | Hnin].
  - by rewrite dict_set_keys_in.
  - rewrite dict_set_new by done. rewrite map_app. simpl.
    apply NoDup_app. split; [done |]. split; [| apply NoDup_singleton].
    intros x Hx Hx'. apply list_elem_of_singleton in Hx'. by subst.
Qed.

Lemma keep_best_keys (d : score_map) (k : string) (s : pyfloat) (x : string) :
  x ∈ map fst (keep_best d k s) <-> x = k \/ x ∈ map fst d.
Proof.
  unfold keep_best. destruct (dict_get d k) as [cur |] eqn:Hg.
  - destruct (float_gtb s cur); [apply dict_set_keys |].
    split; [by right | intros [-> | ?]; [| done]].
    apply dict_get_elem in Hg. apply list_elem_of_fmap. by exists (k, cur).
  - apply dict_set_keys.
Qed.

Lemma keep_best_NoDup (d : score_map) (k : string) (s : pyfloat) :
  NoDup (map fst d) -> NoDup (map fst (keep_best d k s)).
Proof.
  intros Hnd. unfold keep_best. destruct (dict_get d k) as [cur |].
  - destruct (float_gtb s cur); [by apply dict_set_NoDup | done].
  - by apply dict_set_NoDup.
Qed.

Lemma keep_best_get_other (d : score_map) (k k' : string) (s : pyfloat) :
  k <> k' -> dict_get (keep_best d k s) k' = dict_get d k'.
Proof.
  intros Hne. unfold keep_best.
  assert (Hset : dict_get (dict_set d k s) k' = dict_get d k').
  { rewrite dict_get_set. by destruct (String.eqb_spec k k'). }
  destruct (dict_get d k) as [cur |]; [destruct (float_gtb s cur) |]; done.
Qed.

(** What [keep_best] leaves under the key it was called on. *)
Lemma keep_best_get_same (d : score_map) (k : string) (s : pyfloat) :
  match dict_get d k with
  | None => dict_get (keep_best d k s) k = Some s
  | Some cur =>
      (dict_get (keep_best d k s) k = Some s /\ float_gtb s cur = true) \/
      (dict_get (keep_best d k s) k = Some cur /\ float_gtb s cur = false)
  end.
Proof.
  unfold keep_best. destruct (dict_get d k) as [cur |] eqn:Hg.
  - destruct (float_gtb s cur) eqn:Hc.
    + left. split; [| done].
      rewrite dict_get_set. by rewrite String.eqb_refl.
    + right. by split.
  - rewrite dict_get_set. by rewrite String.eqb_refl.
Qed.

(** *** The best-score loop *)

Lemma collect_best_snoc (guard : string -> bool) (rs : list result_record)
    (r : result_record) :
  collect_best guard (rs ++ [r]) =
  if guard (get_mb_sn r)
  then keep_best (collect_best guard rs) (get_mb_sn r) (get_score r)
  else collect_best guard rs.
Proof. unfold collect_best. by rewrite fold_left_app. Qed.

Lemma collect_best_NoDup (guard : string -> bool) (rs : list result_record) :
  NoDup (map fst (collect_best guard rs)).
Proof.
  induction rs as [| r rs IH] using rev_ind; [constructor |].
  rewrite collect_best_snoc. destruct (guard (get_mb_sn r)); [| done].
  by apply keep_best_NoDup.
Qed.

(** The keys of the score map are the guarded identifiers of the response. *)
Lemma collect_best_keys (guard : string -> bool) (rs : list result_record)
    (x : string) :
  x ∈ map fst (collect_best guard rs) <->
  guard x = true /\ exists r, r ∈ rs /\ get_mb_sn r = x.
Proof.
  induction rs as [| r rs IH] using rev_ind.
  - simpl. split; [intros H; by apply elem_of_nil in H |].
    intros [_ (r & H & _)]. by apply elem_of_nil in H.
  - rewrite collect_best_snoc. destruct (guard (get_mb_sn r)) eqn:Hg.
    + rewrite keep_best_keys, IH. split.
      * intros [-> | [Hx (r' & Hr' & Heq)]].
        -- split; [done |]. exists r. split; [| done].
           apply elem_of_app. right. by apply list_elem_of_singleton.
        -- split; [done |]. exists r'. split; [| done].
           apply elem_of_app. by left.
      * intros [Hx (r' & Hr' & Heq)].
        apply elem_of_app in Hr' as [Hr' | Hr'].
        -- right. eauto.
        -- apply list_elem_of_singleton in Hr'. subst. by left.
    + rewrite IH. split.
      * intros [Hx (r' & Hr' & Heq)]. split; [done |].
        exists r'. split; [| done]. apply elem_of_app. by left.
      * intros [Hx (r' & Hr' & Heq)]. split; [done |].
        apply elem_of_app in Hr' as [Hr' | Hr']; [eauto |].
        apply list_elem_of_singleton in Hr'. subst. congruence.
Qed.

(** The score kept for an identifier is one observed for it in the
    response. *)
Lemma collect_best_observed (guard : string -> bool) (rs : list result_record)
    (x : string) (s : pyfloat) :
  dict_get (collect_best guard rs) x = Some s ->
  exists r, r ∈ rs /\ get_mb_sn r = x /\ get_score r = s.
Proof.
  revert s. induction rs as [| r rs IH] using rev_ind; intros s; [done |].
  assert (Hlast : r ∈ (rs ++ [r])%list).
  { apply elem_of_app. right. by apply list_elem_of_singleton. }
  assert (Hold : forall s', dict_get (collect_best guard rs) x = Some s' ->
                 exists r0, r0 ∈ (rs ++ [r])%list /\ get_mb_sn r0 = x /\
                            get_score r0 = s').
  { intros s' Hs'. destruct (IH s' Hs') as (r0 & Hr0 & Hid0 & Hs0).
    exists r0. split; [apply elem_of_app; by left | done]. }
  rewrite collect_best_snoc. destruct (guard (get_mb_sn r)) eqn:Hg; [| apply Hold].
  destruct (decide (get_mb_sn r = x)) as [Heq | Hne].
  - subst x. pose proof (keep_best_get_same (collect_best guard rs)
      (get_mb_sn r) (get_score r)) as Hsame.
    destruct (dict_get (collect_best guard rs) (get_mb_sn r))
      as [cur |] eqn:Hcur.
    + destruct Hsame as [[-> _] | [-> _]]; intros [= <-]; [by exists r |].
      by apply Hold.
    + rewrite Hsame. intros [= <-]. by exists r.
  - rewrite keep_best_get_other by done. apply Hold.
Qed.

(** When no score of the response is NaN, no record of that identifier
    has a greater score than the one kept. *)
Lemma collect_best_max (guard : string -> bool) (rs : list result_record)
    (x : string) (s : pyfloat) :
  (forall r, r ∈ rs -> is_nan (get_score r) = false) ->
  dict_get (collect_best guard rs) x = Some s ->
  forall r, r ∈ rs -> get_mb_sn r = x -> float_geb s (get_score r) = true.
Proof.
  revert s. induction rs as [| r rs IH] using rev_ind; intros s Hnan; [done |].
  assert (Hnan' : forall r0, r0 ∈ rs -> is_nan (get_score r0) = false).
  { intros r0 Hr0. apply Hnan, elem_of_app. by left. }
  assert (Hr : is_nan (get_score r) = false).
  { apply Hnan, elem_of_app. right. by apply list_elem_of_singleton. }
  rewrite collect_best_snoc. destruct (guard (get_mb_sn r)) eqn:Hg.
  - destruct (decide (get_mb_sn r = x)) as [Heq | Hne].
    + subst x. pose proof (keep_best_get_same (collect_best guard rs)
        (get_mb_sn r) (get_score r)) as Hsame.
      destruct (dict_get (collect_best guard rs) (get_mb_sn r))
        as [cur |] eqn:Hcur.
      * destruct (collect_best_observed guard rs _ cur Hcur)
          as (r0 & Hr0 & _ & Hs0).
        assert (Hcnan : is_nan cur = false) by (rewrite <- Hs0; by apply Hnan').
        destruct Hsame as [[-> Hgt] | [-> Hngt]]; intros [= <-];
          intros r' Hr' Hid'; apply elem_of_app in Hr' as [Hr' | Hr'].
        -- apply (float_geb_trans _ cur); [by apply float_gtb_geb |].
           by apply (IH cur).
        -- apply list_elem_of_singleton in Hr' as ->. by apply float_geb_refl.
        -- by apply (IH cur).
        -- apply list_elem_of_singleton in Hr' as ->.
           by apply float_not_gtb_geb.
      * rewrite Hsame. intros [= <-] r' Hr' Hid'.
        apply elem_of_app in Hr' as [Hr' | Hr'].
        -- exfalso. apply dict_get_None in Hcur. apply Hcur.
           apply collect_best_keys. split; [done | by exists r'].
        -- apply list_elem_of_singleton in Hr' as ->. by apply float_geb_refl.
    + rewrite keep_best_get_other by done. intros Hs r' Hr' Hid'.
      apply elem_of_app in Hr' as [Hr' | Hr']; [by apply (IH s) |].
      apply list_elem_of_singleton in Hr'. by subst.
  - intros Hs r' Hr' Hid'.
    apply elem_of_app in Hr' as [Hr' | Hr']; [by apply (IH s) |].
    apply list_elem_of_singleton in Hr' as ->.
    apply dict_get_elem in Hs.
    assert (Hk : x ∈ map fst (collect_best guard rs)).
    { apply list_elem_of_fmap. by exists (x, s). }
    apply collect_best_keys in Hk as [Hk _]. congruence.
Qed.

(** Without NaN in the response there is none in the score map. *)
Lemma collect_best_not_nan (guard : string -> bool) (rs : list result_record) :
  (forall r, r ∈ rs -> is_nan (get_score r) = false) ->
  Forall (fun p => is_nan (snd p) = false) (collect_best guard rs).
Proof.
  intros Hnan. apply Forall_forall. intros [k s] Hin. simpl.
  apply dict_get_NoDup in Hin; [| apply collect_best_NoDup].
  destruct (collect_best_observed guard rs k s Hin) as (r & Hr & _ & <-).
  by apply Hnan.
Qed.

(** ** Sorted items of a score map *)

Lemma sorted_items_elem (d : score_map) (p : string * pyfloat) :
  p ∈ sorted_items sorter d <-> p ∈ d.
Proof. apply py_sorted_elem. Qed.

Lemma sorted_items_keys (d : score_map) (x : string) :
  x ∈ map fst (sorted_items sorter d) <-> x ∈ map fst d.
Proof. unfold sorted_items. by rewrite py_sorted_perm. Qed.

Lemma sorted_items_NoDup (d : score_map) :
  NoDup (map fst d) -> NoDup (map fst (sorted_items sorter d)).
Proof. unfold sorted_items. by rewrite py_sorted_perm. Qed.

Lemma NoDup_take {A : Type} (n : nat) (l : list A) :
  NoDup l -> NoDup (take n l).
Proof.
  intros H. rewrite <- (take_drop n l) in H. by apply NoDup_app in H as [? _].
Qed.

Lemma NoDup_slice_to {A : Type} (n : Z) (l : list A) :
  NoDup l -> NoDup (slice_to n l).
Proof. destruct (slice_to_prefix n l) as [m ->]. apply NoDup_take. Qed.

Lemma StronglySorted_slice_to {A : Type} (R : A -> A -> Prop) (n : Z)
    (l : list A) :
  StronglySorted R l -> StronglySorted R (slice_to n l).
Proof. destruct (slice_to_prefix n l) as [m ->]. apply StronglySorted_take. Qed.


(** ** The final ranking *)

Lemma truncate_prefix {A : Type} (final_count : option Z) (l : list A) :
  exists m : nat, truncate final_count l = take m l.
Proof.
  destruct final_count as [fc |]; simpl; [apply slice_to_prefix |].
  exists (length l). by rewrite take_ge.
Qed.

Lemma final_sorted_NoDup (cands : list string) (rs : list result_record) :
  NoDup (map fst (final_sorted sorter cands rs)).
Proof. apply sorted_items_NoDup, collect_best_NoDup. Qed.

Lemma final_sorted_sorted (cands : list string) (rs : list result_record) :
  (forall r, r ∈ rs -> is_nan (get_score r) = false) ->
  StronglySorted (desc snd) (final_sorted sorter cands rs).
Proof.
  intros Hnan. apply py_sorted_sorted. by apply collect_best_not_nan.
Qed.

(** The emitted pairs are the ranked pairs, truncated: the lookup in
    [final_scores] always finds the score the identifier was ranked by. *)
Lemma emit_eq (final_count : option Z) (cands : list string)
    (rs : list result_record) :
  emit sorter final_count cands rs =
  map to_panel (truncate final_count (final_sorted sorter cands rs)).
Proof.
  unfold emit.
  assert (Hpre : (match final_count with
                  | Some fc => slice_to fc (map fst (final_sorted sorter cands rs))
                  | None => map fst (final_sorted sorter cands rs)
                  end)
                 = map fst (truncate final_count (final_sorted sorter cands rs))).
  { destruct final_count; simpl; [apply slice_to_fmap | done]. }
  rewrite Hpre. clear Hpre.
  destruct (truncate_prefix final_count (final_sorted sorter cands rs)) as [m ->].
  rewrite map_map. apply map_ext_in. intros [k s] Hin. unfold to_panel. simpl.
  f_equal. apply list_elem_of_In in Hin. apply subseteq_take in Hin.
  unfold final_sorted in Hin. apply (proj1 (sorted_items_elem _ _)) in Hin.
  rewrite (dict_get_NoDup _ k s); [done | apply collect_best_NoDup | done].
Qed.

Lemma emit_NoDup (final_count : option Z) (cands : list string)
    (rs : list result_record) :
  NoDup (map mb_sn (emit sorter final_count cands rs)).
Proof.
  rewrite emit_eq, map_map. simpl.
  destruct (truncate_prefix final_count (final_sorted sorter cands rs)) as [m ->].
  change (NoDup (map fst (take m (final_sorted sorter cands rs)))).
  rewrite fmap_take. apply NoDup_take, final_sorted_NoDup.
Qed.

Lemma StronglySorted_to_panel (l : list (string * pyfloat)) :
  StronglySorted (desc snd) l -> StronglySorted (desc score) (map to_panel l).
Proof.
  induction 1 as [| p l Hl IH Hp]; simpl; constructor; [exact IH |].
  apply Forall_forall. intros q Hq.
  apply list_elem_of_fmap in Hq as (p' & -> & Hp').
  eapply Forall_forall in Hp; [exact Hp | done].
Qed.


(** ** Shape of a run *)

(** A run that returns a list returns either the empty list (an early
    exit) or what the final ranking emitted. *)
Lemma run_returned (searcher : searcher_t) (embeddings : gmap string embedding)
    (category_order : list string) (final_count : option Z)
    (topic_filters : option (gmap string filter_spec))
    (tr tr' : trace) (res : list panel) :
  filter_by_categories sorter searcher embeddings category_order final_count
    topic_filters tr = (Returned res, tr') ->
  res = [] \/ exists cands rs, res = emit sorter final_count cands rs.
Proof.
  unfold filter_by_categories.
  destruct category_order as [| c rest]; [intros [= <- _]; by left |].
  destruct (embeddings !! c) as [e |]; [| intros [= <- _]; by left].
  unfold bind at 1.
  destruct (seed sorter _ _ _ _ _ tr) as [[cands | ex] tr1]; [| done].
  destruct (length cands =? 0)%nat; [intros [= <- _]; by left |].
  unfold bind at 1.
  destruct (refine_loop sorter _ _ _ _ _ _ tr1) as [[cands' | ex] tr2]; [| done].
  unfold final_ranking, bind, lift, search_by_category, ret.
  destruct (last_embedding _ _) as [[c' e'] | ex]; [| done].
  intros [= <- _]. right. eauto.
Qed.


(** ** Refinement stages *)

Section Refinement.

Variable searcher : searcher_t.
Variable embeddings : gmap string embedding.
Variable final_count : option Z.
Variable topic_filters : option (gmap string filter_spec).

Lemma rescore_filtered_subseteq (cands : list string)
    (rs : list result_record) :
  rescore_filtered sorter cands rs ⊆ cands.
Proof.
  intros x Hx. unfold rescore_filtered in Hx.
  apply sorted_items_keys, collect_best_keys in Hx as [Hg _].
  apply bool_decide_eq_true in Hg. apply elem_of_list_to_set in Hg.
  apply list_elem_of_omap in Hg as (r & _ & Hr).
  destruct (rec_mb_sn r) as [m |]; [| done].
  destruct (mem m cands) eqn:Hm; [| done].
  injection Hr as ->. by apply bool_decide_eq_true in Hm.
Qed.

Lemma rescore_unfiltered_subseteq (cands : list string)
    (rs : list result_record) :
  rescore_unfiltered sorter final_count cands rs ⊆ cands.
Proof.
  intros x Hx. unfold rescore_unfiltered in Hx.
  assert (Hk : x ∈ map fst (sorted_items sorter
                              (collect_best (fun m => mem m cands) rs))).
  { destruct final_count; apply list_elem_of_fmap in Hx as (p & -> & Hp);
      apply slice_to_subseteq in Hp; apply list_elem_of_fmap; eauto. }
  apply sorted_items_keys, collect_best_keys in Hk as [Hg _].
  by apply bool_decide_eq_true in Hg.
Qed.

(** A refinement stage never raises, issues exactly one call, and keeps
    only identifiers of the candidate set it was given. *)
Lemma refine_stage_run (category : string) (embedding : embedding)
    (cands : list string) (tr : trace) :
  exists next,
    refine_stage sorter searcher final_count topic_filters category embedding cands tr
    = (Returned next,
       (tr ++ [stage_call final_count topic_filters category embedding
                 cands])%list) /\
    next ⊆ cands.
Proof.
  unfold refine_stage, bind, search_by_category, ret.
  fold (stage_call final_count topic_filters category embedding cands).
  destruct (filter_truthy (get_filter topic_filters category)).
  - eexists. split; [reflexivity | apply rescore_filtered_subseteq].
  - eexists. split; [reflexivity | apply rescore_unfiltered_subseteq].
Qed.

Lemma stage_call_is_stage_call (category : string) (embedding : embedding)
    (cands : list string) :
  cands <> [] ->
  is_stage_call final_count topic_filters
    (stage_call final_count topic_filters category embedding cands).
Proof. intros Hne. exists cands. by repeat split. Qed.

(** The loop never raises; it only appends stage calls to the trace and
    only removes identifiers from the candidate set. *)
Lemma refine_loop_run (categories : list string) (cands : list string)
    (tr : trace) :
  exists final calls,
    refine_loop sorter searcher embeddings final_count topic_filters categories
      cands tr
    = (Returned final, (tr ++ calls)%list) /\
    final ⊆ cands /\
    Forall (is_stage_call final_count topic_filters) calls.
Proof.
  revert cands tr.
  induction categories as [| c rest IH]; intros cands tr; simpl.
  - exists cands, []. by rewrite app_nil_r.
  - destruct (embeddings !! c) as [e |]; [| apply IH].
    destruct cands as [| x cands'] eqn:Hc; simpl.
    + exists [], []. by rewrite app_nil_r.
    + rewrite <- Hc. unfold bind.
      destruct (refine_stage_run c e cands tr) as (next & -> & Hsub).
      destruct (IH next
                  (tr ++ [stage_call final_count topic_filters c e cands])%list)
        as (final & calls & -> & Hsub' & Hcalls).
      exists final, (stage_call final_count topic_filters c e cands :: calls).
      split; [| split].
      * by rewrite <- app_assoc.
      * by etrans.
      * constructor; [| done]. apply stage_call_is_stage_call. by subst.
Qed.

End Refinement.

(** ** The calls of a whole run *)

Section Run.

Variable searcher : searcher_t.
Variable embeddings : gmap string embedding.
Variable final_count : option Z.
Variable topic_filters : option (gmap string filter_spec).

Lemma seed_run (c : string) (e : embedding) (tr : trace) :
  exists out,
    seed sorter searcher final_count topic_filters c e tr
    = (out, (tr ++ [seed_call final_count topic_filters c e])%list).
Proof.
  unfold seed, bind, search_by_category, ret, lift.
  fold (seed_call final_count topic_filters c e).
  destruct (filter_truthy (get_filter topic_filters c)); eauto.
Qed.

Lemma final_ranking_run (category_order : list string) (cands : list string)
    (tr : trace) :
  match last_embedding embeddings category_order with
  | Returned (c, e) =>
      final_ranking sorter searcher embeddings category_order final_count cands tr
      = (Returned (emit sorter final_count cands (searcher tr (final_call c e cands))),
         (tr ++ [final_call c e cands])%list)
  | Raised ex =>
      final_ranking sorter searcher embeddings category_order final_count cands tr
      = (Raised ex, tr)
  end.
Proof.
  unfold final_ranking, bind, lift, search_by_category, ret.
  by destruct (last_embedding embeddings category_order) as [[c e] | ex].
Qed.

Lemma final_ranking_calls (category_order : list string) (cands : list string)
    (tr : trace) :
  exists out calls,
    final_ranking sorter searcher embeddings category_order final_count cands tr
    = (out, (tr ++ calls)%list) /\
    Forall (fun c => metadata_filter c = None) calls.
Proof.
  pose proof (final_ranking_run category_order cands tr) as H.
  destruct (last_embedding embeddings category_order) as [[c e] | ex].
  - eexists _, [_]. split; [exact H |]. by repeat constructor.
  - exists (Raised ex), []. rewrite app_nil_r. by split.
Qed.

(** Once the seed embedding is found, a run issues the seeding call, then
    stage calls, then at most the final call. *)
Lemma run_calls (c : string) (rest : list string) (e : embedding) (tr : trace) :
  embeddings !! c = Some e ->
  exists out stage_calls final_calls,
    filter_by_categories sorter searcher embeddings (c :: rest) final_count
      topic_filters tr
    = (out,
       (tr ++ seed_call final_count topic_filters c e
           :: stage_calls ++ final_calls)%list) /\
    Forall (is_stage_call final_count topic_filters) stage_calls /\
    Forall (fun c => metadata_filter c = None) final_calls.
Proof.
  intros He. unfold filter_by_categories. rewrite He. unfold bind at 1.
  destruct (seed_run c e tr) as [out ->].
  destruct out as [cands | ex]; [| by exists (Raised ex), [], []].
  destruct (length cands =? 0)%nat; [by exists (Returned []), [], [] |].
  unfold bind at 1.
  destruct (refine_loop_run searcher embeddings final_count topic_filters
              rest cands (tr ++ [seed_call final_count topic_filters c e])%list)
    as (final & calls & -> & _ & Hcalls).
  destruct (final_ranking_calls (c :: rest) final
              ((tr ++ [seed_call final_count topic_filters c e]) ++ calls)%list)
    as (out & fcalls & -> & Hf).
  exists out, calls, fcalls. split; [| done].
  f_equal. rewrite <- !app_assoc. done.
Qed.

(** Without a seed, no call is issued. *)
Lemma run_no_seed (category_order : list string) (tr : trace) :
  (forall c rest, category_order = c :: rest -> embeddings !! c = None) ->
  filter_by_categories sorter searcher embeddings category_order final_count
    topic_filters tr = (Returned [], tr).
Proof.
  intros H. unfold filter_by_categories.
  destruct category_order as [| c rest]; [done |].
  by rewrite (H c rest eq_refl).
Qed.

End Run.


(** * The properties of the specification *)

(** ** Uniqueness and order of the result *)

(** C6 (P3, uniqueness): whatever the inputs and the responses of the
    searcher, responses with duplicated identifiers included, the list
    returned by [filter_by_categories] has no two entries with the same
    identifier. *)
Theorem result_unique (searcher : searcher_t)
    (embeddings : gmap string embedding) (category_order : list string)
    (final_count : option Z) (topic_filters : option (gmap string filter_spec))
    (tr tr' : trace) (res : list panel) :
  filter_by_categories sorter searcher embeddings category_order final_count
    topic_filters tr = (Returned res, tr') ->
  NoDup (map mb_sn res).
Proof.
  intros Hrun. apply run_returned in Hrun as [-> | (cands & rs & ->)].
  - constructor.
  - apply emit_NoDup.
Qed.


(** ** Refinement *)

(** C8 (P6, subset monotonicity): a refinement stage returns a candidate
    set all of whose identifiers belong to the candidate set it received,
    whatever identifiers the searcher returns; hence so does the whole
    refinement loop, skipped stages leaving the set as it is.  Neither
    ever raises. *)
Theorem refinement_subset (searcher : searcher_t)
    (embeddings : gmap string embedding) (final_count : option Z)
    (topic_filters : option (gmap string filter_spec)) :
  (forall (category : string) (embedding : embedding) (cands : list string)
          (tr : trace),
      exists next tr',
        refine_stage sorter searcher final_count topic_filters category embedding
          cands tr = (Returned next, tr') /\
        forall id, id ∈ next -> id ∈ cands) /\
  (forall (categories : list string) (cands : list string) (tr : trace),
      exists final tr',
        refine_loop sorter searcher embeddings final_count topic_filters categories
          cands tr = (Returned final, tr') /\
        forall id, id ∈ final -> id ∈ cands).
Proof.
  split.
  - intros category embedding cands tr.
    destruct (refine_stage_run searcher final_count topic_filters category
                embedding cands tr) as (next & Hrun & Hsub).
    eauto.
  - intros categories cands tr.
    destruct (refine_loop_run searcher embeddings final_count topic_filters
                categories cands tr) as (final & calls & Hrun & Hsub & _).
    eauto.
Qed.

(** ** Search widths *)

(** C9 (P7, seeding width): once the seed embedding is found, the first
    call of the run is the seeding call, without allow-list, and its
    [top_k] is 10000 under a metadata filter for the first category,
    10000 without filter and without [final_count], and
    [max (final_count * 10) 2000] without filter and with [final_count];
    with [final_count = 100] and no filter it is 2000. *)
Theorem seeding_width (searcher : searcher_t)
    (embeddings : gmap string embedding) (c : string) (rest : list string)
    (final_count : option Z) (topic_filters : option (gmap string filter_spec))
    (e : embedding) (tr : trace) :
  embeddings !! c = Some e ->
  exists call,
    snd (filter_by_categories sorter searcher embeddings (c :: rest) final_count
           topic_filters tr) !! length tr = Some call /\
    category call = c /\
    filter_mb_sns call = None /\
    top_k call =
      (if filter_truthy (get_filter topic_filters c) then 10000
       else match final_count with
            | None => 10000
            | Some k => Z.max (k * 10) 2000
            end) /\
    (final_count = Some 100 ->
     filter_truthy (get_filter topic_filters c) = false ->
     top_k call = 2000).
Proof.
  intros He.
  destruct (run_calls searcher embeddings final_count topic_filters c rest e
              tr He) as (out & stage_calls & final_calls & -> & _ & _).
  exists (seed_call final_count topic_filters c e). simpl.
  split; [apply list_lookup_middle; done |].
  split; [done |]. split; [done |].
  unfold initial_count. split.
  - by destruct final_count, (filter_truthy (get_filter topic_filters c)).
  - by intros -> ->.
Qed.

(** Every call a run issues with both an allow-list and a metadata-filter
    argument is the call of a non-skipped refinement stage, with the
    metadata filter configured for its category and the width of lines
    129-137. *)
Lemma refinement_calls_have_width (searcher : searcher_t)
    (embeddings : gmap string embedding) (category_order : list string)
    (final_count : option Z) (topic_filters : option (gmap string filter_spec))
    (tr : trace) (call : search_call) (cands : list string) (f : filter_spec) :
  call ∈ drop (length tr)
           (snd (filter_by_categories sorter searcher embeddings category_order
                   final_count topic_filters tr)) ->
  filter_mb_sns call = Some cands ->
  metadata_filter call = Some f ->
  f = get_filter topic_filters (category call) /\
  cands <> [] /\
  top_k call =
    Z.max (if bool_decide (final_count = None) && filter_truthy f
           then Z.min (Z.of_nat (length cands) * 3) 10000
           else Z.min (Z.of_nat (length cands) * 2) 10000) 1.
Proof.
  intros Hin Hallow Hmeta.
  assert (Hstage : is_stage_call final_count topic_filters call).
  { destruct category_order as [| c rest].
    - rewrite run_no_seed in Hin by done. simpl in Hin.
      rewrite drop_all in Hin. by apply elem_of_nil in Hin.
    - destruct (embeddings !! c) as [e |] eqn:He.
      + destruct (run_calls searcher embeddings final_count topic_filters c
                    rest e tr He)
          as (out & stage_calls & final_calls & Hrun & Hstage & Hfinal).
        rewrite Hrun in Hin. simpl in Hin. rewrite drop_app_length in Hin.
        apply elem_of_cons in Hin as [-> | Hin]; [done |].
        apply elem_of_app in Hin as [Hin | Hin].
        * eapply Forall_forall in Hstage; [exact Hstage | done].
        * eapply Forall_forall in Hfinal; [| exact Hin]. congruence.
      + rewrite run_no_seed in Hin.
        * simpl in Hin. rewrite drop_all in Hin. by apply elem_of_nil in Hin.
        * by intros ? ? [= <- <-]. }
  destruct Hstage as (cands' & Hne & Hallow' & Hmeta' & Hk).
  assert (cands' = cands) as -> by congruence.
  assert (f = get_filter topic_filters (category call)) as Hf by congruence.
  split; [done |]. split; [done |].
  rewrite Hk, <- Hf. unfold search_count.
  by destruct final_count, (filter_truthy f).
Qed.

(** Without candidates the loop does nothing. *)
Lemma refine_loop_no_candidates (searcher : searcher_t)
    (embeddings : gmap string embedding) (final_count : option Z)
    (topic_filters : option (gmap string filter_spec))
    (categories : list string) (tr : trace) :
  refine_loop sorter searcher embeddings final_count topic_filters categories
    [] tr = (Returned [], tr).
Proof.
  induction categories as [| c rest IH]; simpl; [done |].
  by destruct (embeddings !! c).
Qed.

(** The loop over [pre ++ post] is the loop over [pre] followed by the
    loop over [post]. *)
Lemma refine_loop_app (searcher : searcher_t)
    (embeddings : gmap string embedding) (final_count : option Z)
    (topic_filters : option (gmap string filter_spec))
    (pre post : list string) (cands : list string) (tr : trace) :
  refine_loop sorter searcher embeddings final_count topic_filters
    (pre ++ post) cands tr
  = match refine_loop sorter searcher embeddings final_count topic_filters
            pre cands tr with
    | (Returned mid, tr1) =>
        refine_loop sorter searcher embeddings final_count topic_filters
          post mid tr1
    | (Raised ex, tr1) => (Raised ex, tr1)
    end.
Proof.
  revert cands tr. induction pre as [| x pre IH]; intros cands tr; [done |].
  simpl. destruct (embeddings !! x) as [e |]; [| apply IH].
  destruct cands as [| y cands'].
  - simpl. by rewrite refine_loop_no_candidates.
  - change (length (y :: cands') =? 0)%nat with false. cbv beta iota.
    unfold bind.
    destruct (refine_stage _ _ _ _ _ _ _ _) as [[next | ex] tr2]; [| done].
    apply IH.
Qed.

(** C10 (refinement width): every refinement stage that is not skipped
    issues its request, with the claimed width.  Whatever categories
    [pre] come between the first category and [c] and whatever categories
    [post] follow, when the stages of [pre] leave the non-empty candidate
    set [cands] and [c] has an embedding, the next call of the run, right
    after the calls issued so far, is the request for [c]: allow-list
    [cands], the metadata filter configured for [c], and [top_k]
    [min (len * 3) 10000] when [final_count] is unset and that filter is
    non-empty, [min (len * 2) 10000] otherwise, floored at 1. *)
Theorem refinement_width (searcher : searcher_t)
    (embeddings : gmap string embedding) (c0 : string) (pre : list string)
    (c : string) (post : list string) (final_count : option Z)
    (topic_filters : option (gmap string filter_spec)) (e0 e : embedding)
    (tr tr1 tr2 : trace) (cands0 cands : list string) :
  embeddings !! c0 = Some e0 ->
  seed sorter searcher final_count topic_filters c0 e0 tr
  = (Returned cands0, tr1) ->
  cands0 <> [] ->
  refine_loop sorter searcher embeddings final_count topic_filters pre cands0
    tr1 = (Returned cands, tr2) ->
  embeddings !! c = Some e ->
  cands <> [] ->
  snd (filter_by_categories sorter searcher embeddings
         (c0 :: pre ++ c :: post) final_count topic_filters tr) !! length tr2
  = Some {| query_embedding := e;
            category := c;
            top_k :=
              Z.max (if bool_decide (final_count = None)
                        && filter_truthy (get_filter topic_filters c)
                     then Z.min (Z.of_nat (length cands) * 3) 10000
                     else Z.min (Z.of_nat (length cands) * 2) 10000) 1;
            filter_mb_sns := Some cands;
            metadata_filter := Some (get_filter topic_filters c) |}.
Proof.
  intros He0 Hseed Hne0 Hpre He Hne.
  unfold filter_by_categories. rewrite He0. unfold bind at 1. rewrite Hseed.
  destruct cands0 as [| x0 cands0']; [done |].
  change (length (x0 :: cands0') =? 0)%nat with false. cbv beta iota.
  unfold bind at 1. rewrite refine_loop_app, Hpre. simpl. rewrite He.
  destruct cands as [| x cands']; [done |].
  change (length (x :: cands') =? 0)%nat with false. cbv beta iota.
  unfold bind at 1.
  destruct (refine_stage_run searcher final_count topic_filters c e
              (x :: cands') tr2) as (next & -> & _).
  destruct (refine_loop_run searcher embeddings final_count
              topic_filters post next
              (tr2 ++ [stage_call final_count topic_filters c e
                         (x :: cands')])%list)
    as (final & calls & -> & _ & _).
  destruct (final_ranking_calls searcher embeddings final_count
              (c0 :: pre ++ c :: post) final
              ((tr2 ++ [stage_call final_count topic_filters c e
                          (x :: cands')]) ++ calls)%list)
    as (out & fcalls & -> & _).
  simpl snd. rewrite <- !app_assoc.
  etrans;
    [exact (list_lookup_middle tr2 (calls ++ fcalls)
              (stage_call final_count topic_filters c e (x :: cands'))
              (length tr2) eq_refl) |].
  f_equal. unfold stage_call, search_count.
  by destruct final_count, (filter_truthy (get_filter topic_filters c)).
Qed.

(** ** The final ranking *)

Lemma last_embedding_found (embeddings : gmap string embedding)
    (category_order : list string) (c : string) (e : embedding) :
  last category_order = Some c -> embeddings !! c = Some e ->
  last_embedding embeddings category_order = Returned (c, e).
Proof. unfold last_embedding. by intros -> ->. Qed.

(** C2, as the code has it: when the embedding of [category_order[-1]] is
    present, the final re-query targets that category with [top_k] equal
    to the size of the candidate set, the set as allow-list and no
    metadata filter; the pairs emitted before the [final_count] truncation
    are exactly the identifiers of the candidate set that occur in the
    final response, each with the score of one of its records there (a
    missing score of a record counting as 0.0), and that score is the
    best among its records when no score of the response is NaN.
    Candidates the response omits are not emitted. *)
Theorem final_ranking_emits_scored (searcher : searcher_t)
    (embeddings : gmap string embedding) (category_order : list string)
    (final_count : option Z) (cands : list string) (tr : trace)
    (c : string) (e : embedding) :
  last category_order = Some c ->
  embeddings !! c = Some e ->
  let call := {| query_embedding := e;
                 category := c;
                 top_k := Z.of_nat (length cands);
                 filter_mb_sns := Some cands;
                 metadata_filter := None |} in
  let response := searcher tr call in
  exists ranked,
    final_ranking sorter searcher embeddings category_order final_count cands tr
    = (Returned (map to_panel (truncate final_count ranked)),
       (tr ++ [call])%list) /\
    (forall id, id ∈ map fst ranked <->
                id ∈ cands /\ exists r, r ∈ response /\ get_mb_sn r = id) /\
    (forall id s, (id, s) ∈ ranked ->
       exists r, r ∈ response /\ get_mb_sn r = id /\ get_score r = s) /\
    ((forall r, r ∈ response -> is_nan (get_score r) = false) ->
     forall id s, (id, s) ∈ ranked ->
       forall r, r ∈ response -> get_mb_sn r = id ->
         float_geb s (get_score r) = true).
Proof.
  intros Hlast He call response.
  pose proof (final_ranking_run searcher embeddings final_count
                category_order cands tr) as Hrun.
  rewrite (last_embedding_found _ _ c e Hlast He) in Hrun.
  fold call in Hrun. fold response in Hrun.
  assert (Hget : forall id s, (id, s) ∈ final_sorted sorter cands response ->
            dict_get (final_scores cands response) id = Some s).
  { intros id s Hin. unfold final_sorted in Hin.
    apply (proj1 (sorted_items_elem _ _)) in Hin.
    apply dict_get_NoDup; [apply collect_best_NoDup | exact Hin]. }
  exists (final_sorted sorter cands response). split; [| split; [| split]].
  - by rewrite Hrun, emit_eq.
  - intros id. unfold final_sorted, final_scores.
    rewrite sorted_items_keys, collect_best_keys. unfold mem.
    by rewrite bool_decide_eq_true.
  - intros id s Hin.
    by apply (collect_best_observed (fun m => mem m cands)), Hget.
  - intros Hnan id s Hin.
    by apply (collect_best_max (fun m => mem m cands)), Hget.
Qed.

(** C5, as the code has it: with [final_count = k >= 0], when more than [k]
    candidates are scored by the final response (the ranked list has more
    than [k] pairs), the final ranking returns exactly [k] entries, the
    [k] first of the ranked list; when no score of the final response is
    NaN they are the top [k] by score: every entry kept has a score at
    least that of every entry cut off. *)
Theorem truncation_top_k (searcher : searcher_t)
    (embeddings : gmap string embedding) (category_order : list string)
    (k : Z) (cands : list string) (tr : trace) (c : string) (e : embedding) :
  last category_order = Some c ->
  embeddings !! c = Some e ->
  0 <= k ->
  let call := {| query_embedding := e;
                 category := c;
                 top_k := Z.of_nat (length cands);
                 filter_mb_sns := Some cands;
                 metadata_filter := None |} in
  let ranked := final_sorted sorter cands (searcher tr call) in
  k < Z.of_nat (length ranked) ->
  exists res rest,
    final_ranking sorter searcher embeddings category_order (Some k) cands tr
    = (Returned res, (tr ++ [call])%list) /\
    Z.of_nat (length res) = k /\
    map to_panel ranked = (res ++ rest)%list /\
    ((forall r, r ∈ searcher tr call -> is_nan (get_score r) = false) ->
     forall a b, a ∈ res -> b ∈ rest -> float_geb (score a) (score b) = true).
Proof.
  intros Hlast He Hk call ranked Hlen.
  pose proof (final_ranking_run searcher embeddings (Some k)
                category_order cands tr) as Hrun.
  rewrite (last_embedding_found _ _ c e Hlast He) in Hrun.
  fold call in Hrun. rewrite emit_eq in Hrun. fold ranked in Hrun.
  simpl in Hrun. unfold slice_to in Hrun.
  apply Z.leb_le in Hk as Hk'. rewrite Hk' in Hrun.
  exists (map to_panel (take (Z.to_nat k) ranked)),
         (map to_panel (drop (Z.to_nat k) ranked)).
  split; [exact Hrun |]. split; [| split].
  - rewrite length_map, length_take. lia.
  - by rewrite <- map_app, take_drop.
  - intros Hnan a b Ha Hb.
    pose proof (StronglySorted_to_panel ranked
                  (final_sorted_sorted cands (searcher tr call) Hnan)) as Hs.
    rewrite <- (take_drop (Z.to_nat k) ranked), map_app in Hs.
    exact (StronglySorted_app_1_elem_of _ _ _ a b Hs Ha Hb).
Qed.

(** ** Where the code departs from the specification *)



(** With no candidate left the score map stays empty. *)
Lemma collect_best_unguarded (guard : string -> bool)
    (rs : list result_record) :
  (forall x, guard x = false) -> collect_best guard rs = [].
Proof.
  intros Hg. destruct (collect_best guard rs) as [| [k v] d] eqn:Hd; [done |].
  assert (Hk : k ∈ map fst (collect_best guard rs)).
  { rewrite Hd. simpl. apply list_elem_of_here. }
  apply collect_best_keys in Hk as [Hk _]. rewrite Hg in Hk. discriminate Hk.
Qed.

(** An empty candidate set reaching the final ranking is still sent to
    the searcher, as an empty allow-list with [top_k = 0]. *)
Lemma final_ranking_empty_candidates (searcher : searcher_t)
    (embeddings : gmap string embedding) (category_order : list string)
    (final_count : option Z) (tr : trace) (c : string) (e : embedding) :
  last category_order = Some c ->
  embeddings !! c = Some e ->
  final_ranking sorter searcher embeddings category_order final_count [] tr
  = (Returned [],
     (tr ++ [{| query_embedding := e;
                category := c;
                top_k := 0;
                filter_mb_sns := Some [];
                metadata_filter := None |}])%list).
Proof.
  intros Hlast He.
  pose proof (final_ranking_run searcher embeddings final_count
                category_order [] tr) as Hrun.
  rewrite (last_embedding_found _ _ c e Hlast He) in Hrun.
  rewrite Hrun. unfold final_call. simpl. f_equal. f_equal.
  rewrite emit_eq. unfold final_sorted, final_scores.
  rewrite collect_best_unguarded.
  - unfold sorted_items. rewrite py_sorted_nil.
    destruct final_count as [k |]; simpl; [| done].
    unfold slice_to. destruct (0 <=? k); by rewrite take_nil.
  - intros x. unfold mem. apply bool_decide_eq_false, not_elem_of_nil.
Qed.

(** A comprehension raises as soon as one of its elements does. *)
Lemma map_outcome_raises {A B : Type} (f : A -> outcome B) (l : list A)
    (x : A) (e0 : exn) :
  x ∈ l -> f x = Raised e0 ->
  (forall y e, f y = Raised e -> e = e0) ->
  map_outcome f l = Raised e0.
Proof.
  intros Hin Hx Hall. induction l as [| a l IH]; simpl.
  - by apply elem_of_nil in Hin.
  - destruct (f a) as [b | e] eqn:Ha.
    + apply elem_of_cons in Hin as [-> | Hin]; [congruence |].
      by rewrite IH.
    + f_equal. by apply (Hall a).
Qed.

(** Unfiltered seeding raises on any identified record without a score. *)
Lemma seed_unfiltered_scoreless (final_count : option Z)
    (rs : list result_record) (r : result_record) :
  r ∈ rs -> id_truthy r = true -> rec_score r = None ->
  seed_unfiltered sorter final_count rs = Raised (KeyError "score").
Proof.
  intros Hin Hid Hscore. unfold seed_unfiltered.
  rewrite (map_outcome_raises _ _ r (KeyError "score")); [done | | |].
  - by apply list_elem_of_filter.
  - unfold subscript_score. by rewrite Hscore.
  - intros y e. unfold subscript_score. by destruct (rec_score y); intros [=].
Qed.

(** * Further properties of the stages *)

(** ** Ordered de-duplication *)

Lemma fromkeys_snoc (l : list string) (k : string) :
  fromkeys (l ++ [k]) =
  if mem k (fromkeys l) then fromkeys l else (fromkeys l ++ [k])%list.
Proof. unfold fromkeys. by rewrite fold_left_app. Qed.

Lemma fromkeys_elem (l : list string) (x : string) : x ∈ fromkeys l <-> x ∈ l.
Proof.
  induction l as [| k l IH] using rev_ind; [done |].
  rewrite fromkeys_snoc, elem_of_app, list_elem_of_singleton.
  unfold mem. case_bool_decide as Hk.
  - rewrite IH. split; [by left | intros [? | ->]; [done | by apply IH]].
  - by rewrite elem_of_app, list_elem_of_singleton, IH.
Qed.

Lemma fromkeys_NoDup (l : list string) : NoDup (fromkeys l).
Proof.
  induction l as [| k l IH] using rev_ind; [constructor |].
  rewrite fromkeys_snoc. unfold mem. case_bool_decide as Hk; [done |].
  apply NoDup_app. split; [done |]. split; [| apply NoDup_singleton].
  intros x Hx Hx'. apply list_elem_of_singleton in Hx'. by subst.
Qed.

Lemma fromkeys_length (l : list string) : (length (fromkeys l) <= length l)%nat.
Proof.
  induction l as [| k l IH] using rev_ind; [done |].
  rewrite fromkeys_snoc, length_app. simpl.
  destruct (mem k (fromkeys l)); [lia |]. rewrite length_app. simpl. lia.
Qed.

(** ** Comprehensions that do not raise *)

Lemma map_outcome_returns {A B : Type} (f : A -> outcome B) (g : A -> B)
    (l : list A) :
  (forall x, x ∈ l -> f x = Returned (g x)) ->
  map_outcome f l = Returned (map g l).
Proof.
  induction l as [| a l IH]; intros H; simpl; [done |].
  rewrite (H a) by apply list_elem_of_here.
  rewrite IH; [done |]. intros x Hx. apply H. by apply list_elem_of_further.
Qed.

Lemma map_outcome_raised {A B : Type} (f : A -> outcome B) (l : list A)
    (e : exn) :
  map_outcome f l = Raised e -> exists x, x ∈ l /\ f x = Raised e.
Proof.
  induction l as [| a l IH]; simpl; [done |].
  destruct (f a) as [b | e'] eqn:Ha.
  - destruct (map_outcome f l) as [bs | e'']; [done |].
    intros [= ->]. destruct (IH eq_refl) as (x & Hx & Hfx).
    exists x. split; [by apply list_elem_of_further | done].
  - intros [= ->]. exists a. split; [apply list_elem_of_here | done].
Qed.

(** ** Identifiers of records *)

Lemma id_truthy_names (r : result_record) :
  id_truthy r = true -> names r (get_mb_sn r) /\ get_mb_sn r <> "".
Proof.
  unfold id_truthy, names, get_mb_sn, str_truthy.
  destruct (rec_mb_sn r) as [m |]; [| done]. simpl.
  intros H. split; [done |]. intros ->. done.
Qed.

Lemma str_truthy_names (r : result_record) :
  str_truthy (get_mb_sn r) = true -> names r (get_mb_sn r).
Proof.
  unfold names, get_mb_sn. by destruct (rec_mb_sn r).
Qed.

Lemma str_truthy_ne (x : string) : str_truthy x = true <-> x <> "".
Proof.
  unfold str_truthy. destruct (String.eqb_spec x ""); simpl; split; congruence.
Qed.

Lemma names_get_mb_sn (r : result_record) (id : string) :
  names r id -> get_mb_sn r = id.
Proof. unfold names, get_mb_sn. by intros ->. Qed.

Lemma get_mb_sn_names (r : result_record) (id : string) :
  id <> "" -> get_mb_sn r = id -> names r id.
Proof.
  unfold names, get_mb_sn. destruct (rec_mb_sn r); simpl; congruence.
Qed.

(** ** Seeding *)

Lemma keyed_records_elem (rs : list result_record) (p : result_record * pyfloat) :
  p ∈ keyed_records rs ->
  fst p ∈ rs /\ id_truthy (fst p) = true /\ snd p = get_score (fst p).
Proof.
  unfold keyed_records. intros Hp.
  apply list_elem_of_fmap in Hp as (r & -> & Hr).
  apply list_elem_of_filter in Hr as [Hid Hr]. by simpl.
Qed.

Lemma ranked_ids_elem (rs : list result_record) (id : string) :
  id ∈ ranked_ids sorter rs <->
  id <> "" /\ exists r, r ∈ rs /\ names r id.
Proof.
  unfold ranked_ids. rewrite list_elem_of_fmap. split.
  - intros (p & -> & Hp). apply py_sorted_elem in Hp.
    apply keyed_records_elem in Hp as (Hin & Hid & _).
    apply id_truthy_names in Hid as [Hn Hne]. eauto.
  - intros (Hne & r & Hr & Hn). exists (r, get_score r). simpl.
    split; [by rewrite (names_get_mb_sn r id) |].
    apply py_sorted_elem. unfold keyed_records.
    apply list_elem_of_fmap. exists r. split; [done |].
    apply list_elem_of_filter. split; [| done].
    unfold id_truthy. rewrite Hn. by apply str_truthy_ne.
Qed.

(** Unfiltered seeding when every identified record has a score: the
    first occurrences of the ranked identifiers, cut at the bound of
    line 107. *)
Lemma seed_unfiltered_scored (final_count : option Z)
    (rs : list result_record) :
  (forall r, r ∈ rs -> id_truthy r = true -> is_Some (rec_score r)) ->
  seed_unfiltered sorter final_count rs =
  Returned (match final_count with
            | Some fc => slice_to (Z.max (fc * 10) 10000)
                           (fromkeys (ranked_ids sorter rs))
            | None => fromkeys (ranked_ids sorter rs)
            end).
Proof.
  intros Hscored. unfold seed_unfiltered.
  rewrite (map_outcome_returns _ (fun r => (r, get_score r))).
  - fold (keyed_records rs).
    rewrite (map_outcome_returns _ get_mb_sn).
    + rewrite map_map. fold (ranked_ids sorter rs). by destruct final_count.
    + intros r Hr. apply list_elem_of_fmap in Hr as (p & -> & Hp).
      apply py_sorted_elem, keyed_records_elem in Hp as (_ & Hid & _).
      apply id_truthy_names in Hid as [Hn _].
      unfold subscript_mb_sn, get_mb_sn. unfold names in Hn. by rewrite Hn.
  - intros r Hr. apply list_elem_of_filter in Hr as [Hid Hr].
    destruct (Hscored r Hr Hid) as [s Hs].
    unfold subscript_score, get_score. by rewrite Hs.
Qed.

Lemma seed_unfiltered_cases (final_count : option Z)
    (rs : list result_record) :
  (forall r, r ∈ rs -> id_truthy r = true -> is_Some (rec_score r)) \/
  (exists r, r ∈ rs /\ id_truthy r = true /\ rec_score r = None).
Proof.
  destruct (Forall_Exists_dec
              (fun r => id_truthy r = true -> is_Some (rec_score r))
              (fun r => id_truthy r = true /\ rec_score r = None)) with (l := rs)
    as [Hall | Hex].
  - intros r. destruct (id_truthy r); [| by left].
    destruct (rec_score r); [left; eauto | by right].
  - left. intros r Hr. by eapply Forall_forall in Hall.
  - right. apply Exists_exists in Hex as (r & Hr & Hid & Hs). eauto.
Qed.

Lemma seed_unfiltered_raised (final_count : option Z)
    (rs : list result_record) (ex : exn) :
  seed_unfiltered sorter final_count rs = Raised ex ->
  ex = KeyError "score" /\
  exists r, r ∈ rs /\ id_truthy r = true /\ rec_score r = None.
Proof.
  intros Hraise.
  destruct (seed_unfiltered_cases final_count rs) as [Hall | (r & Hr & Hid & Hs)].
  - by rewrite (seed_unfiltered_scored final_count rs Hall) in Hraise.
  - rewrite (seed_unfiltered_scoreless final_count rs r Hr Hid Hs) in Hraise.
    injection Hraise as <-. eauto.
Qed.

(** The candidates of the seeding stage, in both modes: unique, non-empty
    identifiers named by a record of the response. *)
Lemma seed_filtered_wellformed (rs : list result_record) :
  NoDup (seed_filtered sorter rs) /\
  forall id, id ∈ seed_filtered sorter rs <->
             id <> "" /\ exists r, r ∈ rs /\ names r id.
Proof.
  unfold seed_filtered. split.
  - apply sorted_items_NoDup, collect_best_NoDup.
  - intros id. rewrite sorted_items_keys, collect_best_keys, str_truthy_ne.
    split; intros (Hne & r & Hr & Hn); (split; [done |]); exists r;
      (split; [done |]).
    + by apply get_mb_sn_names.
    + by apply names_get_mb_sn.
Qed.

Lemma seed_unfiltered_wellformed (final_count : option Z)
    (rs : list result_record) (cands : list string) :
  seed_unfiltered sorter final_count rs = Returned cands ->
  NoDup cands /\
  forall id, id ∈ cands -> id <> "" /\ exists r, r ∈ rs /\ names r id.
Proof.
  intros Hret.
  destruct (seed_unfiltered_cases final_count rs) as [Hall | (r & Hr & Hid & Hs)].
  - rewrite (seed_unfiltered_scored final_count rs Hall) in Hret.
    injection Hret as <-. split.
    + destruct final_count; [apply NoDup_slice_to |]; apply fromkeys_NoDup.
    + intros id Hin. apply ranked_ids_elem, fromkeys_elem.
      destruct final_count; [by apply slice_to_subseteq in Hin | done].
  - by rewrite (seed_unfiltered_scoreless final_count rs r Hr Hid Hs) in Hret.
Qed.

(** ** Candidate sets along a run *)

Lemma rescore_filtered_NoDup (cands : list string) (rs : list result_record) :
  NoDup (rescore_filtered sorter cands rs).
Proof. apply sorted_items_NoDup, collect_best_NoDup. Qed.

Lemma rescore_unfiltered_NoDup (final_count : option Z) (cands : list string)
    (rs : list result_record) :
  NoDup (rescore_unfiltered sorter final_count cands rs).
Proof.
  unfold rescore_unfiltered.
  destruct final_count; rewrite <- slice_to_fmap;
    apply NoDup_slice_to, sorted_items_NoDup, collect_best_NoDup.
Qed.

Lemma refine_stage_NoDup (searcher : searcher_t) (final_count : option Z)
    (topic_filters : option (gmap string filter_spec)) (category : string)
    (embedding : embedding) (cands : list string) (tr tr' : trace)
    (next : list string) :
  refine_stage sorter searcher final_count topic_filters category embedding cands tr
  = (Returned next, tr') ->
  NoDup next.
Proof.
  unfold refine_stage, bind, search_by_category, ret.
  destruct (filter_truthy (get_filter topic_filters category));
    intros [= <- _];
    [apply rescore_filtered_NoDup | apply rescore_unfiltered_NoDup].
Qed.

Lemma emit_ids (final_count : option Z) (cands : list string)
    (rs : list result_record) (p : panel) :
  p ∈ emit sorter final_count cands rs -> mb_sn p ∈ cands.
Proof.
  rewrite emit_eq. intros Hp.
  apply list_elem_of_fmap in Hp as (q & -> & Hq).
  destruct (truncate_prefix final_count (final_sorted sorter cands rs)) as [m Hm].
  rewrite Hm in Hq. apply subseteq_take in Hq.
  assert (Hk : fst q ∈ map fst (final_sorted sorter cands rs)).
  { apply list_elem_of_fmap. eauto. }
  unfold final_sorted, final_scores in Hk.
  apply sorted_items_keys, collect_best_keys in Hk as [Hk _].
  by apply bool_decide_eq_true in Hk.
Qed.

Lemma emit_length (final_count : option Z) (cands : list string)
    (rs : list result_record) :
  length (emit sorter final_count cands rs)
  = length (truncate final_count (final_sorted sorter cands rs)).
Proof. by rewrite emit_eq, length_map. Qed.

Section Candidates.

Variable searcher : searcher_t.
Variable embeddings : gmap string embedding.
Variable final_count : option Z.
Variable topic_filters : option (gmap string filter_spec).

(** The refinement loop started on a duplicate-free candidate set: it
    issues at most one call per category, and every allow-list it passes
    is a duplicate-free part of the set it started from. *)
Lemma refine_loop_detailed (categories : list string) (cands : list string)
    (tr : trace) :
  NoDup cands ->
  exists final calls,
    refine_loop sorter searcher embeddings final_count topic_filters categories
      cands tr
    = (Returned final, (tr ++ calls)%list) /\
    NoDup final /\
    final ⊆ cands /\
    (length calls <= length categories)%nat /\
    Forall (fun c => exists l, filter_mb_sns c = Some l /\ NoDup l /\ l ⊆ cands)
           calls.
Proof.
  revert cands tr.
  induction categories as [| c rest IH]; intros cands tr Hnd; simpl.
  - exists cands, []. rewrite app_nil_r. split; [done |].
    split; [done |]. split; [done |]. split; [simpl; lia | constructor].
  - destruct (embeddings !! c) as [e |].
    + destruct cands as [| x cands'] eqn:Hc; simpl.
      * exists [], []. rewrite app_nil_r. split; [done |].
        split; [constructor |]. split; [done |]. split; [simpl; lia | constructor].
      * rewrite <- Hc in *. unfold bind.
        destruct (refine_stage_run searcher final_count topic_filters c e
                    cands tr) as (next & Hstage & Hsub).
        pose proof (refine_stage_NoDup _ _ _ _ _ _ _ _ _ Hstage) as Hnext.
        rewrite Hstage.
        destruct (IH next
                    (tr ++ [stage_call final_count topic_filters c e cands])%list
                    Hnext)
          as (final & calls & -> & Hfin & Hsub' & Hlen & Hcalls).
        exists final, (stage_call final_count topic_filters c e cands :: calls).
        split; [by rewrite <- app_assoc |].
        split; [done |]. split; [by etrans |]. split; [simpl; lia |].
        constructor; [by exists cands |].
        eapply Forall_impl; [exact Hcalls |].
        intros call (l & Hl & Hndl & Hsubl). exists l.
        split; [done |]. split; [done | by etrans].
    + destruct (IH cands tr Hnd) as (final & calls & -> & ? & ? & ? & ?).
      exists final, calls. split; [done |].
      split; [done |]. split; [done |]. split; [simpl; lia | done].
Qed.

(** A run past the seed embedding, in full: the calls it issues after the
    seeding call, the allow-lists it passes, and the identifiers it
    returns, all drawn from the seeding response. *)
Lemma run_detailed (c : string) (rest : list string) (e : embedding)
    (tr : trace) :
  embeddings !! c = Some e ->
  exists out calls,
    filter_by_categories sorter searcher embeddings (c :: rest) final_count
      topic_filters tr
    = (out, (tr ++ seed_call final_count topic_filters c e :: calls)%list) /\
    (length calls <= length rest + 1)%nat /\
    Forall (fun call =>
              exists l, filter_mb_sns call = Some l /\ NoDup l /\
                forall id, id ∈ l ->
                  id <> "" /\
                  exists r, r ∈ searcher tr
                                  (seed_call final_count topic_filters c e) /\
                            names r id) calls /\
    (forall res, out = Returned res ->
       forall p, p ∈ res ->
         mb_sn p <> "" /\
         exists r, r ∈ searcher tr (seed_call final_count topic_filters c e) /\
                   names r (mb_sn p)).
Proof.
  intros He. unfold filter_by_categories. rewrite He.
  set (response := searcher tr (seed_call final_count topic_filters c e)).
  assert (Hseed : exists out,
             seed sorter searcher final_count topic_filters c e tr
             = (out, (tr ++ [seed_call final_count topic_filters c e])%list) /\
             forall cands, out = Returned cands ->
               NoDup cands /\
               forall id, id ∈ cands ->
                 id <> "" /\ exists r, r ∈ response /\ names r id).
  { unfold seed, bind, search_by_category, ret, lift.
    fold (seed_call final_count topic_filters c e). fold response.
    destruct (filter_truthy (get_filter topic_filters c)).
    - eexists. split; [reflexivity |]. intros cands [= <-].
      destruct (seed_filtered_wellformed response) as [Hnd Hin].
      split; [done |]. intros id Hid. by apply Hin.
    - eexists. split; [reflexivity |]. intros cands Hc.
      by apply (seed_unfiltered_wellformed final_count). }
  destruct Hseed as (out & Hseed & Hok). unfold bind at 1. rewrite Hseed.
  destruct out as [cands | ex].
  - destruct (Hok cands eq_refl) as [Hnd Hin].
    destruct (length cands =? 0)%nat.
    { exists (Returned []), []. split; [done |]. split; [simpl; lia |].
      split; [constructor |].
      intros res [= <-] p Hp. by apply elem_of_nil in Hp. }
    unfold bind at 1.
    destruct (refine_loop_detailed rest cands
                (tr ++ [seed_call final_count topic_filters c e])%list Hnd)
      as (final & calls & -> & Hfin & Hsub & Hlen & Hcalls).
    assert (Hcalls' : Forall (fun call =>
              exists l, filter_mb_sns call = Some l /\ NoDup l /\
                forall id, id ∈ l ->
                  id <> "" /\ exists r, r ∈ response /\ names r id) calls).
    { eapply Forall_impl; [exact Hcalls |].
      intros call (l & Hl & Hndl & Hsubl). exists l.
      split; [done |]. split; [done |]. intros id Hid. by apply Hin, Hsubl. }
    pose proof (final_ranking_run searcher embeddings final_count (c :: rest)
                  final ((tr ++ [seed_call final_count topic_filters c e])
                         ++ calls)%list) as Hfr.
    destruct (last_embedding embeddings (c :: rest)) as [[c' e'] | ex].
    + rewrite Hfr. eexists _, (calls ++ [final_call c' e' final])%list.
      split; [by rewrite <- !app_assoc |].
      split; [rewrite length_app; simpl; lia |]. split.
      * apply Forall_app. split; [done |]. constructor; [| done].
        exists final. split; [done |]. split; [done |].
        intros id Hid. by apply Hin, Hsub.
      * intros res [= <-] p Hp. apply emit_ids in Hp. by apply Hin, Hsub.
    + rewrite Hfr. exists (Raised ex), calls.
      split; [by rewrite <- !app_assoc |].
      split; [lia |]. split; [done |]. by intros res [=].
  - exists (Raised ex), []. split; [done |]. split; [simpl; lia |].
    split; [constructor | by intros res [=]].
Qed.

End Candidates.

Lemma slice_to_nil {A : Type} (n : Z) : slice_to n (@nil A) = [].
Proof. unfold slice_to. destruct (0 <=? n); apply take_nil. Qed.

(** * Further properties of [filter_by_categories] *)

(** ** Early exits *)

(** The seeding stage as one equation: the call, then the candidates of
    the mode selected by the metadata filter of the seed category. *)
Lemma seed_eq (searcher : searcher_t) (final_count : option Z)
    (topic_filters : option (gmap string filter_spec)) (c : string)
    (e : embedding) (tr : trace) :
  seed sorter searcher final_count topic_filters c e tr
  = (if filter_truthy (get_filter topic_filters c)
     then Returned (seed_filtered sorter
                      (searcher tr (seed_call final_count topic_filters c e)))
     else seed_unfiltered sorter final_count
            (searcher tr (seed_call final_count topic_filters c e)),
     (tr ++ [seed_call final_count topic_filters c e])%list).
Proof.
  unfold seed, bind, search_by_category, ret, lift.
  fold (seed_call final_count topic_filters c e).
  by destruct (filter_truthy (get_filter topic_filters c)).
Qed.

(** X1 (lines 35-45): with an empty [category_order], or without an
    embedding for its first category, the filter returns the empty list
    and never calls the searcher. *)
Theorem no_seed_no_call (searcher : searcher_t)
    (embeddings : gmap string embedding) (category_order : list string)
    (final_count : option Z) (topic_filters : option (gmap string filter_spec))
    (tr : trace) :
  category_order = [] \/
  (exists c rest, category_order = c :: rest /\ embeddings !! c = None) ->
  filter_by_categories sorter searcher embeddings category_order final_count
    topic_filters tr = (Returned [], tr).
Proof.
  intros H. apply run_no_seed. intros c rest ->.
  destruct H as [? | (c' & rest' & [= <- <-] & ?)]; done.
Qed.

(** X2 (lines 75-111): when no record of the seeding response carries a
    non-empty identifier (an empty response included), the filter returns
    the empty list after the seeding call alone; records without a score
    do no harm then. *)
Theorem seeding_without_identifiers (searcher : searcher_t)
    (embeddings : gmap string embedding) (c : string) (rest : list string)
    (final_count : option Z) (topic_filters : option (gmap string filter_spec))
    (e : embedding) (tr : trace) :
  embeddings !! c = Some e ->
  (forall r, r ∈ searcher tr (seed_call final_count topic_filters c e) ->
             id_truthy r = false) ->
  filter_by_categories sorter searcher embeddings (c :: rest) final_count
    topic_filters tr
  = (Returned [], (tr ++ [seed_call final_count topic_filters c e])%list).
Proof.
  intros He Hnone. unfold filter_by_categories. rewrite He.
  unfold bind at 1. rewrite seed_eq.
  set (rs := searcher tr (seed_call final_count topic_filters c e)) in *.
  assert (Hno : forall id, ~ (id <> "" /\ exists r, r ∈ rs /\ names r id)).
  { intros id (Hne & r & Hr & Hn). specialize (Hnone r Hr).
    unfold id_truthy in Hnone. rewrite Hn in Hnone.
    apply str_truthy_ne in Hne. congruence. }
  destruct (filter_truthy (get_filter topic_filters c)).
  - assert (seed_filtered sorter rs = []) as ->; [| done].
    apply elem_of_nil_inv. intros id Hid.
    apply (Hno id). by apply seed_filtered_wellformed.
  - rewrite seed_unfiltered_scored.
    + assert (fromkeys (ranked_ids sorter rs) = []) as ->.
      { apply elem_of_nil_inv. intros id Hid.
        apply (Hno id). by apply ranked_ids_elem, fromkeys_elem. }
      destruct final_count as [k |]; [| done]. by rewrite slice_to_nil.
    + intros r Hr Hid. rewrite (Hnone r Hr) in Hid. discriminate Hid.
Qed.

(** ** When the filter raises *)

(** X3 (lines 99-103): unfiltered seeding raises exactly when some record
    of the response has a non-empty identifier and no score, and what it
    raises is [KeyError("score")]. *)
Theorem unfiltered_seeding_raises_iff (final_count : option Z)
    (rs : list result_record) (ex : exn) :
  seed_unfiltered sorter final_count rs = Raised ex <->
  ex = KeyError "score" /\
  exists r, r ∈ rs /\ id_truthy r = true /\ rec_score r = None.
Proof.
  split; [apply seed_unfiltered_raised |].
  intros (-> & r & Hr & Hid & Hs). by apply (seed_unfiltered_scoreless _ _ r).
Qed.


(** ** Candidates and identifiers *)

(** X5 (lines 75-104): without [final_count], the candidate set of the
    seeding stage has no duplicates and holds exactly the non-empty
    identifiers named by the records of the seeding response, with or
    without a metadata filter. *)
Theorem seeding_keeps_every_identifier (searcher : searcher_t)
    (topic_filters : option (gmap string filter_spec)) (c : string)
    (e : embedding) (tr tr1 : trace) (cands : list string) :
  seed sorter searcher None topic_filters c e tr = (Returned cands, tr1) ->
  NoDup cands /\
  forall id,
    id ∈ cands <->
    id <> "" /\
    exists r, r ∈ searcher tr (seed_call None topic_filters c e) /\ names r id.
Proof.
  rewrite seed_eq.
  set (rs := searcher tr (seed_call None topic_filters c e)).
  destruct (filter_truthy (get_filter topic_filters c)).
  - intros [= <- _]. apply seed_filtered_wellformed.
  - intros [= Hret _].
    destruct (seed_unfiltered_cases None rs) as [Hall | (r & Hr & Hid & Hs)].
    + rewrite (seed_unfiltered_scored None rs Hall) in Hret.
      injection Hret as <-. split; [apply fromkeys_NoDup |].
      intros id. by rewrite fromkeys_elem, ranked_ids_elem.
    + by rewrite (seed_unfiltered_scoreless None rs r Hr Hid Hs) in Hret.
Qed.

(** X6 (lines 139-145 and 189-194): every allow-list a run passes to the
    searcher is free of duplicates and holds only non-empty identifiers
    that a record of the seeding response names. *)
Theorem allow_lists_from_seed (searcher : searcher_t)
    (embeddings : gmap string embedding) (c : string) (rest : list string)
    (final_count : option Z) (topic_filters : option (gmap string filter_spec))
    (e : embedding) (tr : trace) (call : search_call) (l : list string) :
  embeddings !! c = Some e ->
  call ∈ drop (length tr)
           (snd (filter_by_categories sorter searcher embeddings (c :: rest)
                   final_count topic_filters tr)) ->
  filter_mb_sns call = Some l ->
  NoDup l /\
  forall id, id ∈ l ->
    id <> "" /\
    exists r, r ∈ searcher tr (seed_call final_count topic_filters c e) /\
              names r id.
Proof.
  intros He Hin Hl.
  destruct (run_detailed searcher embeddings final_count topic_filters c rest
              e tr He) as (out & calls & Hrun & _ & Hcalls & _).
  rewrite Hrun in Hin. simpl in Hin. rewrite drop_app_length in Hin.
  apply elem_of_cons in Hin as [-> | Hin]; [done |].
  eapply Forall_forall in Hcalls; [| exact Hin].
  destruct Hcalls as (l' & Hl' & Hnd & Hids).
  assert (l' = l) as -> by congruence. done.
Qed.

(** X7 (lines 16-221): the filter never returns an identifier of its own
    making: every entry of a returned list carries a non-empty identifier
    that a record of the seeding response names. *)
Theorem result_from_seed_response (searcher : searcher_t)
    (embeddings : gmap string embedding) (category_order : list string)
    (final_count : option Z) (topic_filters : option (gmap string filter_spec))
    (tr tr' : trace) (res : list panel) (p : panel) :
  filter_by_categories sorter searcher embeddings category_order final_count
    topic_filters tr = (Returned res, tr') ->
  p ∈ res ->
  exists c rest e,
    category_order = c :: rest /\ embeddings !! c = Some e /\
    mb_sn p <> "" /\
    exists r, r ∈ searcher tr (seed_call final_count topic_filters c e) /\
              names r (mb_sn p).
Proof.
  intros Hrun Hp.
  destruct category_order as [| c rest].
  { rewrite run_no_seed in Hrun by done. injection Hrun as <- _.
    by apply elem_of_nil in Hp. }
  destruct (embeddings !! c) as [e |] eqn:He.
  - destruct (run_detailed searcher embeddings final_count topic_filters c
                rest e tr He) as (out & calls & Hrun' & _ & _ & Hres).
    rewrite Hrun' in Hrun. injection Hrun as -> _.
    exists c, rest, e. split; [done |]. split; [done |].
    by apply (Hres res).
  - rewrite run_no_seed in Hrun.
    + injection Hrun as <- _. by apply elem_of_nil in Hp.
    + by intros ? ? [= <- <-].
Qed.

(** ** Sizes *)

(** X8 (lines 209-210): with [final_count = k >= 0] a returned list never
    has more than [k] entries; in particular [final_count = 0] returns
    the empty list. *)
Theorem result_length_bound (searcher : searcher_t)
    (embeddings : gmap string embedding) (category_order : list string)
    (k : Z) (topic_filters : option (gmap string filter_spec))
    (tr tr' : trace) (res : list panel) :
  0 <= k ->
  filter_by_categories sorter searcher embeddings category_order (Some k)
    topic_filters tr = (Returned res, tr') ->
  Z.of_nat (length res) <= k.
Proof.
  intros Hk Hrun. apply run_returned in Hrun as [-> | (cands & rs & ->)].
  - simpl. lia.
  - rewrite emit_length. simpl. unfold slice_to.
    apply Z.leb_le in Hk as Hk'. rewrite Hk', length_take. lia.
Qed.

(** X9 (lines 66-72, 114-145, 189-194): a run only appends to the trace of
    searcher calls, and it appends at most one call per category of
    [category_order] plus one for the final ranking. *)
Theorem call_count_bound (searcher : searcher_t)
    (embeddings : gmap string embedding) (category_order : list string)
    (final_count : option Z) (topic_filters : option (gmap string filter_spec))
    (tr : trace) :
  exists calls,
    snd (filter_by_categories sorter searcher embeddings category_order final_count
           topic_filters tr) = (tr ++ calls)%list /\
    (length calls <= length category_order + 1)%nat.
Proof.
  destruct category_order as [| c rest].
  { exists []. rewrite run_no_seed by done. simpl.
    split; [by rewrite app_nil_r | lia]. }
  destruct (embeddings !! c) as [e |] eqn:He.
  - destruct (run_detailed searcher embeddings final_count topic_filters c
                rest e tr He) as (out & calls & -> & Hlen & _ & _).
    eexists. split; [reflexivity |]. simpl. lia.
  - exists []. rewrite run_no_seed.
    + simpl. split; [by rewrite app_nil_r | lia].
    + by intros ? ? [= <- <-].
Qed.

(** ** Truncations that the searcher's limit makes idle *)

Lemma slice_to_ge {A : Type} (n : Z) (l : list A) :
  Z.of_nat (length l) <= n -> slice_to n l = l.
Proof.
  intros Hn. unfold slice_to.
  destruct (0 <=? n) eqn:H0; [| apply Z.leb_gt in H0; lia].
  apply take_ge. lia.
Qed.

Lemma dict_set_length (d : score_map) (k : string) (v : pyfloat) :
  (length (dict_set d k v) <= S (length d))%nat.
Proof.
  induction d as [| [k' v'] d IH]; simpl; [lia |].
  destruct (String.eqb k' k); simpl; lia.
Qed.

Lemma collect_best_length (guard : string -> bool) (rs : list result_record) :
  (length (collect_best guard rs) <= length rs)%nat.
Proof.
  induction rs as [| r rs IH] using rev_ind; [done |].
  rewrite collect_best_snoc, length_app. simpl.
  destruct (guard (get_mb_sn r)); [| lia].
  unfold keep_best. destruct (dict_get _ _) as [cur |].
  - destruct (float_gtb _ _); [| lia].
    pose proof (dict_set_length (collect_best guard rs) (get_mb_sn r)
                  (get_score r)). lia.
  - pose proof (dict_set_length (collect_best guard rs) (get_mb_sn r)
                  (get_score r)). lia.
Qed.

Lemma ranked_ids_length (rs : list result_record) :
  (length (ranked_ids sorter rs) <= length rs)%nat.
Proof.
  unfold ranked_ids, keyed_records.
  rewrite length_map, py_sorted_length, length_map. apply length_filter.
Qed.

(** X10 (lines 64 and 106-107): when the seeding response has at most the
    requested [top_k = max (final_count * 10) 2000] records, the bound
    [max (final_count * 10) 10000] of line 107 removes no candidate:
    unfiltered seeding with [final_count] gives what it gives without. *)
Theorem seeding_truncation_idle (fc : Z) (rs : list result_record) :
  Z.of_nat (length rs) <= Z.max (fc * 10) 2000 ->
  seed_unfiltered sorter (Some fc) rs = seed_unfiltered sorter None rs.
Proof.
  intros Hlen.
  destruct (seed_unfiltered_cases None rs) as [Hall | (r & Hr & Hid & Hs)].
  - rewrite !seed_unfiltered_scored by done. f_equal. apply slice_to_ge.
    pose proof (fromkeys_length (ranked_ids sorter rs)).
    pose proof (ranked_ids_length rs). lia.
  - by rewrite !(seed_unfiltered_scoreless _ rs r Hr Hid Hs).
Qed.

(** X11 (lines 135 and 179-186): when the response of an unfiltered
    refinement stage has at most the requested [top_k] records, the bound
    [max (final_count * 3) 10000] of line 184 removes no candidate. *)
Theorem refinement_truncation_idle (fc : Z) (cands : list string)
    (rs : list result_record) :
  Z.of_nat (length rs)
  <= Z.max (Z.min (Z.of_nat (length cands) * 2) 10000) 1 ->
  rescore_unfiltered sorter (Some fc) cands rs = rescore_unfiltered sorter None cands rs.
Proof.
  intros Hlen. unfold rescore_unfiltered.
  pose proof (collect_best_length (fun m => mem m cands) rs) as Hc.
  rewrite !slice_to_ge; [done | lia |].
  unfold sorted_items. rewrite py_sorted_length. lia.
Qed.

(** ** What a refinement stage keeps, and in which order *)

Lemma refine_stage_eq (searcher : searcher_t) (final_count : option Z)
    (topic_filters : option (gmap string filter_spec)) (category : string)
    (embedding : embedding) (cands : list string) (tr : trace) :
  refine_stage sorter searcher final_count topic_filters category embedding cands tr
  = (Returned
       (if filter_truthy (get_filter topic_filters category)
        then rescore_filtered sorter cands
               (searcher tr (stage_call final_count topic_filters category
                               embedding cands))
        else rescore_unfiltered sorter final_count cands
               (searcher tr (stage_call final_count topic_filters category
                               embedding cands))),
     (tr ++ [stage_call final_count topic_filters category embedding
               cands])%list).
Proof.
  unfold refine_stage, bind, search_by_category, ret.
  fold (stage_call final_count topic_filters category embedding cands).
  by destruct (filter_truthy (get_filter topic_filters category)).
Qed.

Lemma filtered_mb_sns_elem (cands : list string) (rs : list result_record)
    (id : string) :
  id ∈ (list_to_set
          (omap (fun r =>
                   match rec_mb_sn r with
                   | Some m => if mem m cands then Some m else None
                   | None => None
                   end) rs) : gset string) <->
  id ∈ cands /\ exists r, r ∈ rs /\ names r id.
Proof.
  rewrite elem_of_list_to_set, list_elem_of_omap. unfold names, mem. split.
  - intros (r & Hr & Hm). destruct (rec_mb_sn r) as [m |] eqn:Hrm; [| done].
    case_bool_decide; [| done]. injection Hm as ->. eauto.
  - intros (Hin & r & Hr & Hn). exists r. split; [done |].
    rewrite Hn. by rewrite bool_decide_eq_true_2.
Qed.

(** X12 (lines 148-186): without [final_count], a refinement stage keeps
    exactly the candidates that a record of its response names, whatever
    else the response contains. *)
Theorem refinement_keeps_named_candidates (searcher : searcher_t)
    (topic_filters : option (gmap string filter_spec)) (category : string)
    (embedding : embedding) (cands : list string) (tr tr' : trace)
    (next : list string) :
  "" ∉ cands ->
  refine_stage sorter searcher None topic_filters category embedding cands tr
  = (Returned next, tr') ->
  forall id,
    id ∈ next <->
    id ∈ cands /\
    exists r, r ∈ searcher tr (stage_call None topic_filters category
                                 embedding cands) /\
              names r id.
Proof.
  intros Hempty. rewrite refine_stage_eq.
  set (rs := searcher tr (stage_call None topic_filters category embedding
                            cands)).
  intros [= <- _] id.
  destruct (filter_truthy (get_filter topic_filters category)).
  - unfold rescore_filtered.
    rewrite sorted_items_keys, collect_best_keys, bool_decide_eq_true.
    rewrite filtered_mb_sns_elem. split; [tauto |].
    intros (Hin & r & Hr & Hn). split; [eauto |].
    exists r. split; [done | by apply names_get_mb_sn].
  - unfold rescore_unfiltered. rewrite slice_to_ge by lia.
    rewrite sorted_items_keys, collect_best_keys. unfold mem.
    rewrite bool_decide_eq_true. split.
    + intros (Hin & r & Hr & Hn). split; [done |]. exists r.
      split; [done |]. apply get_mb_sn_names; [| done]. by intros ->.
    + intros (Hin & r & Hr & Hn). split; [done |]. exists r.
      split; [done | by apply names_get_mb_sn].
Qed.

(** The pairs of a sorted score map, and any prefix of them. *)
Lemma scored_prefix (guard : string -> bool) (rs : list result_record)
    (m : nat) :
  let scored := take m (sorted_items sorter (collect_best guard rs)) in
  (forall id s, (id, s) ∈ scored ->
     guard id = true /\
     exists r, r ∈ rs /\ get_mb_sn r = id /\ get_score r = s) /\
  ((forall r, r ∈ rs -> is_nan (get_score r) = false) ->
   StronglySorted (desc snd) scored /\
   forall id s, (id, s) ∈ scored ->
     forall r, r ∈ rs -> get_mb_sn r = id ->
       float_geb s (get_score r) = true).
Proof.
  simpl.
  assert (Hget : forall id s,
             (id, s) ∈ take m (sorted_items sorter (collect_best guard rs)) ->
             dict_get (collect_best guard rs) id = Some s).
  { intros id s Hin. apply subseteq_take in Hin.
    apply (proj1 (sorted_items_elem _ _)) in Hin.
    apply dict_get_NoDup; [apply collect_best_NoDup | done]. }
  split.
  - intros id s Hin. apply Hget in Hin. split.
    + assert (Hk : id ∈ map fst (collect_best guard rs)).
      { apply list_elem_of_fmap. exists (id, s).
        split; [done | by apply dict_get_elem]. }
      by apply collect_best_keys in Hk as [Hg _].
    + by apply (collect_best_observed guard).
  - intros Hnan. split.
    + apply StronglySorted_take, py_sorted_sorted.
      by apply collect_best_not_nan.
    + intros id s Hin. by apply (collect_best_max guard), Hget.
Qed.


(** ** The order of the seeding candidates *)

(** First occurrences in a list that is sorted by descending score: each
    identifier comes with its best score, and the identifiers are in
    descending order of these. *)
Lemma first_occurrences_scored (L : list (result_record * pyfloat)) :
  Forall (fun p => is_nan (snd p) = false) L ->
  StronglySorted (desc snd) L ->
  exists scored : list (string * pyfloat),
    map fst scored = fromkeys (map (fun p => get_mb_sn (fst p)) L) /\
    StronglySorted (desc snd) scored /\
    forall id s, (id, s) ∈ scored ->
      (exists p, p ∈ L /\ get_mb_sn (fst p) = id /\ snd p = s) /\
      (forall p, p ∈ L -> get_mb_sn (fst p) = id ->
                 float_geb s (snd p) = true).
Proof.
  induction L as [| x L IH] using rev_ind; intros Hnan Hs.
  - exists []. split; [done |]. split; [constructor |].
    intros id s H. by apply elem_of_nil in H.
  - apply Forall_app in Hnan as [HnanL Hxnan].
    apply (proj1 (Forall_singleton _ _)) in Hxnan.
    apply StronglySorted_app in Hs as (Hlt & HsL & _).
    destruct (IH HnanL HsL) as (scored & Hkeys & Hsorted & Hbest).
    assert (Hx : forall y, y ∈ L -> float_geb (snd y) (snd x) = true).
    { intros y Hy. apply (Hlt y x Hy). apply list_elem_of_here. }
    assert (Hfk : fromkeys (map (fun p => get_mb_sn (fst p)) (L ++ [x]))
                  = if mem (get_mb_sn (fst x))
                         (fromkeys (map (fun p => get_mb_sn (fst p)) L))
                    then fromkeys (map (fun p => get_mb_sn (fst p)) L)
                    else (fromkeys (map (fun p => get_mb_sn (fst p)) L)
                            ++ [get_mb_sn (fst x)])%list).
    { rewrite map_app. apply fromkeys_snoc. }
    rewrite Hfk. clear Hfk. unfold mem.
    case_bool_decide as Hseen.
    + exists scored. split; [done |]. split; [done |].
      intros id s Hin. destruct (Hbest id s Hin) as [(p & Hp & Hid & Hsp) Hmax].
      split.
      * exists p. split; [apply elem_of_app; by left | done].
      * intros q Hq Hqid. apply elem_of_app in Hq as [Hq | Hq];
          [by apply Hmax |].
        apply list_elem_of_singleton in Hq as ->. rewrite <- Hsp. by apply Hx.
    + exists (scored ++ [(get_mb_sn (fst x), snd x)])%list.
      split; [by rewrite map_app, Hkeys |]. split.
      * apply StronglySorted_app. split; [| split; [done | repeat constructor]].
        intros a b Ha Hb. apply list_elem_of_singleton in Hb as ->.
        destruct a as [id s].
        destruct (Hbest id s Ha) as [(p & Hp & _ & <-) _].
        unfold desc. simpl. by apply Hx.
      * intros id s Hin. apply elem_of_app in Hin as [Hin | Hin].
        -- destruct (Hbest id s Hin) as [(p & Hp & Hid & Hsp) Hmax]. split.
           ++ exists p. split; [apply elem_of_app; by left | done].
           ++ intros q Hq Hqid. apply elem_of_app in Hq as [Hq | Hq];
                [by apply Hmax |].
              apply list_elem_of_singleton in Hq as ->.
              exfalso. apply Hseen. rewrite <- Hkeys, Hqid.
              apply list_elem_of_fmap. by exists (id, s).
        -- apply list_elem_of_singleton in Hin as [= -> ->]. split.
           ++ exists x. split; [| done].
              apply elem_of_app. right. apply list_elem_of_here.
           ++ intros q Hq Hqid. apply elem_of_app in Hq as [Hq | Hq].
              ** exfalso. apply Hseen. apply fromkeys_elem.
                 apply list_elem_of_fmap. by exists q.
              ** apply list_elem_of_singleton in Hq as ->.
                 by apply float_geb_refl.
Qed.

(** X14 (lines 75-107): when no score of the seeding response is NaN, the
    candidates come, in both seeding modes, in descending order of the
    best score that the response gives each of them: every candidate is
    named by a record with that score, and no record naming it has a
    greater one. *)
Theorem seeding_orders_by_best_score (searcher : searcher_t)
    (final_count : option Z) (topic_filters : option (gmap string filter_spec))
    (c : string) (e : embedding) (tr tr1 : trace) (cands : list string) :
  (forall r, r ∈ searcher tr (seed_call final_count topic_filters c e) ->
             is_nan (get_score r) = false) ->
  seed sorter searcher final_count topic_filters c e tr
  = (Returned cands, tr1) ->
  exists scored : list (string * pyfloat),
    cands = map fst scored /\
    StronglySorted (desc snd) scored /\
    forall id s, (id, s) ∈ scored ->
      (exists r, r ∈ searcher tr (seed_call final_count topic_filters c e) /\
                 names r id /\ get_score r = s) /\
      (forall r, r ∈ searcher tr (seed_call final_count topic_filters c e) ->
                 names r id -> float_geb s (get_score r) = true).
Proof.
  intros Hnan. rewrite seed_eq.
  set (rs := searcher tr (seed_call final_count topic_filters c e)) in *.
  destruct (filter_truthy (get_filter topic_filters c)).
  - intros [= <- _]. unfold seed_filtered.
    exists (take (length (sorted_items sorter (collect_best str_truthy rs)))
                 (sorted_items sorter (collect_best str_truthy rs))).
    destruct (scored_prefix str_truthy rs
                (length (sorted_items sorter (collect_best str_truthy rs))))
      as [Hobs Hord].
    destruct (Hord Hnan) as [Hs Hmax].
    split; [by rewrite take_ge |]. split; [done |].
    intros id s Hin.
    destruct (Hobs id s Hin) as (Hg & r & Hr & Hid & Hsc).
    apply str_truthy_ne in Hg. split.
    + exists r. split; [done |]. split; [by apply get_mb_sn_names | done].
    + intros r' Hr' Hn.
      apply (Hmax id s Hin); [done | by apply names_get_mb_sn].
  - intros [= Hret _].
    destruct (seed_unfiltered_cases final_count rs)
      as [Hall | (r & Hr & Hid & Hsc)];
      [| by rewrite (seed_unfiltered_scoreless _ rs r Hr Hid Hsc) in Hret].
    rewrite (seed_unfiltered_scored final_count rs Hall) in Hret.
    assert (Hknan : Forall (fun p : result_record * pyfloat =>
                              is_nan (snd p) = false) (keyed_records rs)).
    { apply Forall_forall. intros p Hp.
      apply keyed_records_elem in Hp as (Hprs & _ & ->). by apply Hnan. }
    destruct (first_occurrences_scored
                (py_sorted sorter snd (keyed_records rs)))
      as (scored & Hkeys & Hsorted & Hbest).
    { by rewrite py_sorted_perm. }
    { by apply py_sorted_sorted. }
    fold (ranked_ids sorter rs) in Hkeys.
    assert (Hpre : exists m, cands = take m (fromkeys (ranked_ids sorter rs))).
    { destruct final_count as [fc |]; injection Hret as <-.
      - apply slice_to_prefix.
      - exists (length (fromkeys (ranked_ids sorter rs))). by rewrite take_ge. }
    destruct Hpre as [m ->]. exists (take m scored).
    split; [by rewrite <- Hkeys, fmap_take |].
    split; [by apply StronglySorted_take |].
    intros id s Hin. apply subseteq_take in Hin.
    destruct (Hbest id s Hin) as [(p & Hp & Hpid & Hps) Hmax].
    apply py_sorted_elem in Hp.
    apply keyed_records_elem in Hp as (Hprs & Hptruthy & Hpscore).
    apply id_truthy_names in Hptruthy as [Hpn Hpne]. rewrite Hpid in Hpn, Hpne.
    split.
    + exists (fst p). split; [done |]. split; [done | congruence].
    + intros r Hr Hn.
      apply (Hmax (r, get_score r)); [| by apply names_get_mb_sn].
      apply py_sorted_elem. unfold keyed_records.
      apply list_elem_of_fmap. exists r. split; [done |].
      apply list_elem_of_filter. split; [| done].
      unfold id_truthy. unfold names in Hn. rewrite Hn.
      by apply str_truthy_ne.
Qed.

(** ** Categories without an embedding *)

Lemma refine_loop_skips (searcher : searcher_t)
    (embeddings : gmap string embedding) (final_count : option Z)
    (topic_filters : option (gmap string filter_spec))
    (mid tail : list string) (cands : list string) (tr : trace) :
  refine_loop sorter searcher embeddings final_count topic_filters (mid ++ tail)
    cands tr
  = refine_loop sorter searcher embeddings final_count topic_filters
      (filter (fun x => is_Some (embeddings !! x)) mid ++ tail) cands tr.
Proof.
  revert cands tr. induction mid as [| x mid IH]; intros cands tr; [done |].
  destruct (embeddings !! x) as [e |] eqn:Hx.
  - rewrite filter_cons_True by (by rewrite Hx). simpl. rewrite Hx.
    destruct (length cands =? 0)%nat; [done |]. unfold bind.
    destruct (refine_stage sorter _ _ _ _ _ _ _) as [[next | ex] tr2]; [| done].
    apply IH.
  - rewrite filter_cons_False by (rewrite Hx; by intros [? ?]).
    simpl. rewrite Hx. apply IH.
Qed.

Lemma final_ranking_last (searcher : searcher_t)
    (embeddings : gmap string embedding) (order1 order2 : list string)
    (final_count : option Z) (cands : list string) (tr : trace) :
  last order1 = last order2 ->
  final_ranking sorter searcher embeddings order1 final_count cands tr
  = final_ranking sorter searcher embeddings order2 final_count cands tr.
Proof.
  intros Hlast. unfold final_ranking, last_embedding. by rewrite Hlast.
Qed.

(** X15 (lines 114-118 and 189-194): categories between the first and the
    last whose embedding is missing have no effect at all: dropping them
    from [category_order] gives the same outcome and the same calls. *)
Theorem categories_without_embedding_are_ignored (searcher : searcher_t)
    (embeddings : gmap string embedding) (c : string) (mid : list string)
    (l : string) (final_count : option Z)
    (topic_filters : option (gmap string filter_spec)) (tr : trace) :
  filter_by_categories sorter searcher embeddings (c :: mid ++ [l]) final_count
    topic_filters tr
  = filter_by_categories sorter searcher embeddings
      (c :: filter (fun x => is_Some (embeddings !! x)) mid ++ [l])
      final_count topic_filters tr.
Proof.
  unfold filter_by_categories.
  destruct (embeddings !! c) as [e |]; [| done].
  unfold bind at 1 3.
  destruct (seed sorter searcher final_count topic_filters c e tr)
    as [[cands | ex] tr1]; [| done].
  destruct (length cands =? 0)%nat; [done |].
  unfold bind. rewrite refine_loop_skips.
  destruct (refine_loop sorter _ _ _ _ _ _ _) as [[final | ex] tr2]; [| done].
  apply final_ranking_last.
  change (last ((c :: mid) ++ [l])
          = last ((c :: filter (fun x => is_Some (embeddings !! x)) mid)
                    ++ [l])).
  by rewrite !last_snoc.
Qed.

End Properties.

(** * Runs on concrete inputs *)

(** None of the scores of [demo_searcher] is NaN. *)
Lemma demo_searcher_nan_free (tr : trace) (call : search_call)
    (r : result_record) :
  r ∈ demo_searcher tr call -> is_nan (get_score r) = false.
Proof.
  unfold demo_searcher. intros H.
  destruct (String.eqb (category call) "basic");
    repeat (apply elem_of_cons in H as [-> | H]; [reflexivity |]);
    by apply elem_of_nil in H.
Qed.

(** A builtin can order two elements in two ways only. *)
Lemma py_sorted_pair (sorter : py_sorter) {A : Type} (key : A -> pyfloat)
    (x y : A) :
  py_sorted sorter key [x; y] = [x; y] \/ py_sorted sorter key [x; y] = [y; x].
Proof.
  pose proof (py_sorted_perm sorter A key [x; y]) as Hp.
  symmetry in Hp. apply Permutation_length_2_inv in Hp as [-> | ->]; auto.
Qed.

(** Whatever the builtin does with a NaN key, the run of [nan_searcher]
    returns two entries that are out of order: NaN is on one side of the
    comparison. *)
Lemma nan_run_out_of_order (sorter : py_sorter) :
  exists a b,
    fst (filter_by_categories sorter nan_searcher demo_embeddings ["basic"]
           None None [])
    = Returned [a; b] /\
    float_geb (score a) (score b) = false.
Proof.
  assert (Hseed : seed sorter nan_searcher None None "basic" basic_embedding []
                  = (Returned ["p1"; "p2"],
                     [seed_call None None "basic" basic_embedding])).
  { unfold seed, bind, search_by_category, lift, seed_unfiltered. simpl.
    rewrite (py_sorted_total sorter) by (repeat constructor).
    reflexivity. }
  unfold filter_by_categories.
  replace (demo_embeddings !! "basic") with (Some basic_embedding)
    by (vm_compute; reflexivity).
  unfold bind at 1. rewrite Hseed. simpl.
  unfold bind at 1, ret.
  pose proof (final_ranking_run sorter nan_searcher demo_embeddings None
                ["basic"] ["p1"; "p2"]
                [seed_call None None "basic" basic_embedding]) as Hrun.
  replace (last_embedding demo_embeddings ["basic"])
    with (Returned ("basic", basic_embedding)) in Hrun
    by (vm_compute; reflexivity).
  rewrite Hrun. simpl fst. unfold emit, final_sorted, sorted_items.
  replace (final_scores ["p1"; "p2"] _) with [("p1", NaN); ("p2", Num 1)]
    by (vm_compute; reflexivity).
  destruct (py_sorted_pair sorter snd ("p1", NaN) ("p2", Num 1)) as [-> | ->].
  - eexists _, _. split; [reflexivity |]. vm_compute. reflexivity.
  - eexists _, _. split; [reflexivity |]. vm_compute. reflexivity.
Qed.

Lemma result_unique_witness :
  filter_by_categories stable_sorter demo_searcher demo_embeddings ["basic"; "income"]
    (Some 2) None []
  = (Returned [mk_panel "p3" (Num (65 # 100)); mk_panel "p1" (Num (4 # 10))],
     snd (filter_by_categories stable_sorter demo_searcher demo_embeddings
            ["basic"; "income"] (Some 2) None [])) /\
  NoDup ["p3"; "p1"].
Proof.
  assert (Hrun : filter_by_categories stable_sorter demo_searcher demo_embeddings
                   ["basic"; "income"] (Some 2) None []
                 = (Returned [mk_panel "p3" (Num (65 # 100)); mk_panel "p1" (Num (4 # 10))],
                    snd (filter_by_categories stable_sorter demo_searcher demo_embeddings
                           ["basic"; "income"] (Some 2) None []))).
  { vm_compute. reflexivity. }
  split; [exact Hrun |].
  exact (result_unique stable_sorter _ _ _ _ _ _ _ _ Hrun).
Defined.



Lemma seeding_width_witness :
  demo_embeddings !! "basic" = Some basic_embedding /\
  exists call,
    snd (filter_by_categories stable_sorter demo_searcher demo_embeddings
           ("basic" :: ["income"]) (Some 100) None []) !! 0%nat = Some call /\
    category call = "basic" /\
    filter_mb_sns call = None /\
    top_k call =
      (if filter_truthy (get_filter None "basic") then 10000
       else Z.max (100 * 10) 2000) /\
    (Some 100 = Some 100 ->
     filter_truthy (get_filter None "basic") = false ->
     top_k call = 2000).
Proof.
  assert (He : demo_embeddings !! "basic" = Some basic_embedding).
  { vm_compute. reflexivity. }
  split; [exact He |].
  exact (seeding_width stable_sorter demo_searcher demo_embeddings "basic" ["income"]
           (Some 100) None basic_embedding [] He).
Defined.

Lemma refinement_width_witness :
  snd (filter_by_categories stable_sorter demo_searcher three_embeddings
         ("basic" :: [] ++ "income" :: ["vehicle"]) None (Some age_filter) [])
    !! 1%nat
  = Some {| query_embedding := income_embedding;
            category := "income";
            top_k := 9;
            filter_mb_sns := Some ["p1"; "p2"; "p3"];
            metadata_filter := Some [("age_min", "30")] |} /\
  snd (filter_by_categories stable_sorter demo_searcher three_embeddings
         ("basic" :: ["income"] ++ "vehicle" :: []) None (Some age_filter) [])
    !! 2%nat
  = Some {| query_embedding := [(3 # 4)%Q];
            category := "vehicle";
            top_k := 6;
            filter_mb_sns := Some ["p3"; "p1"; "p2"];
            metadata_filter := Some [] |}.
Proof.
  split.
  - exact (refinement_width stable_sorter demo_searcher three_embeddings
             "basic" [] "income" ["vehicle"] None (Some age_filter)
             basic_embedding income_embedding []
             [seed_call None (Some age_filter) "basic" basic_embedding]
             [seed_call None (Some age_filter) "basic" basic_embedding]
             ["p1"; "p2"; "p3"] ["p1"; "p2"; "p3"]
             ltac:(vm_compute; reflexivity) ltac:(vm_compute; reflexivity)
             ltac:(discriminate) ltac:(vm_compute; reflexivity)
             ltac:(vm_compute; reflexivity) ltac:(discriminate)).
  - exact (refinement_width stable_sorter demo_searcher three_embeddings
             "basic" ["income"] "vehicle" [] None (Some age_filter)
             basic_embedding [(3 # 4)%Q] []
             [seed_call None (Some age_filter) "basic" basic_embedding]
             [seed_call None (Some age_filter) "basic" basic_embedding;
              stage_call None (Some age_filter) "income" income_embedding
                ["p1"; "p2"; "p3"]]
             ["p1"; "p2"; "p3"] ["p3"; "p1"; "p2"]
             ltac:(vm_compute; reflexivity) ltac:(vm_compute; reflexivity)
             ltac:(discriminate) ltac:(vm_compute; reflexivity)
             ltac:(vm_compute; reflexivity) ltac:(discriminate)).
Defined.

Lemma final_ranking_emits_scored_witness :
  last ["basic"; "income"] = Some "income" /\
  demo_embeddings !! "income" = Some income_embedding /\
  exists ranked,
    final_ranking stable_sorter demo_searcher demo_embeddings ["basic"; "income"] None
      ["p3"; "p1"; "p2"] []
    = (Returned (map to_panel ranked),
       [{| query_embedding := income_embedding;
           category := "income";
           top_k := 3;
           filter_mb_sns := Some ["p3"; "p1"; "p2"];
           metadata_filter := None |}]) /\
    (forall id, id ∈ map fst ranked <->
       id ∈ ["p3"; "p1"; "p2"] /\
       exists r, r ∈ demo_searcher []
                       {| query_embedding := income_embedding;
                          category := "income";
                          top_k := 3;
                          filter_mb_sns := Some ["p3"; "p1"; "p2"];
                          metadata_filter := None |} /\
                 get_mb_sn r = id).
Proof.
  assert (Hlast : last ["basic"; "income"] = Some "income") by reflexivity.
  assert (He : demo_embeddings !! "income" = Some income_embedding).
  { vm_compute. reflexivity. }
  split; [exact Hlast |]. split; [exact He |].
  destruct (final_ranking_emits_scored stable_sorter demo_searcher demo_embeddings
              ["basic"; "income"] None ["p3"; "p1"; "p2"] [] "income"
              income_embedding Hlast He) as (ranked & Hrun & Hkeys & _).
  exists ranked. split; [exact Hrun | exact Hkeys].
Defined.

(** C2, as stated, fails: the final response of [omitting_searcher] omits
    the candidates ["p2"] and ["p3"], which entered the final ranking (they
    are in the allow-list of the last call), and the run emits neither. *)
Lemma final_ranking_drops_omitted :
  filter_by_categories stable_sorter omitting_searcher demo_embeddings ["basic"] None None []
  = (Returned [mk_panel "p1" (Num (9 # 10))],
     [{| query_embedding := basic_embedding;
         category := "basic";
         top_k := 10000;
         filter_mb_sns := None;
         metadata_filter := Some [] |};
      {| query_embedding := basic_embedding;
         category := "basic";
         top_k := 3;
         filter_mb_sns := Some ["p1"; "p2"; "p3"];
         metadata_filter := None |}]) /\
  ~ (forall id, id ∈ ["p1"; "p2"; "p3"] ->
                id ∈ map mb_sn [mk_panel "p1" (Num (9 # 10))]).
Proof.
  split; [vm_compute; reflexivity |].
  intros H. specialize (H "p2" ltac:(set_solver)).
  simpl in H. apply list_elem_of_singleton in H. discriminate H.
Qed.

Lemma truncation_top_k_witness :
  exists res rest,
    final_ranking stable_sorter demo_searcher demo_embeddings
      ["basic"; "income"] (Some 2) ["p3"; "p1"; "p2"] []
    = (Returned res,
       [{| query_embedding := income_embedding;
           category := "income";
           top_k := 3;
           filter_mb_sns := Some ["p3"; "p1"; "p2"];
           metadata_filter := None |}]) /\
    Z.of_nat (length res) = 2 /\
    [mk_panel "p3" (Num (65 # 100)); mk_panel "p1" (Num (4 # 10));
     mk_panel "p2" (Num 0)]
    = (res ++ rest)%list /\
    (forall a b, a ∈ res -> b ∈ rest -> float_geb (score a) (score b) = true).
Proof.
  assert (He : demo_embeddings !! "income" = Some income_embedding).
  { vm_compute. reflexivity. }
  destruct (truncation_top_k stable_sorter demo_searcher demo_embeddings
              ["basic"; "income"] 2 ["p3"; "p1"; "p2"] [] "income"
              income_embedding eq_refl He ltac:(lia)
              ltac:(vm_compute; reflexivity))
    as (res & rest & Hrun & Hlen & Happ & Hord).
  exists res, rest. split; [exact Hrun |]. split; [exact Hlen |].
  split; [exact Happ |]. apply Hord. apply demo_searcher_nan_free.
Defined.

(** C5, as stated, fails: three candidates survive to the final ranking
    (the allow-list of the last call) and [final_count = 2], yet the
    final response scores only one of them and one entry is returned. *)
Lemma truncation_short_of_k :
  filter_by_categories stable_sorter omitting_searcher demo_embeddings ["basic"] (Some 2)
    None []
  = (Returned [mk_panel "p1" (Num (9 # 10))],
     [{| query_embedding := basic_embedding;
         category := "basic";
         top_k := 2000;
         filter_mb_sns := None;
         metadata_filter := Some [] |};
      {| query_embedding := basic_embedding;
         category := "basic";
         top_k := 3;
         filter_mb_sns := Some ["p1"; "p2"; "p3"];
         metadata_filter := None |}]) /\
  (2 < length ["p1"; "p2"; "p3"])%nat /\
  length [mk_panel "p1" (Num (9 # 10))] <> 2%nat.
Proof.
  split; [vm_compute; reflexivity |]. simpl. lia.
Qed.

(** C1: the embedding of the last category is missing.  The refinement
    loop skips that category, but the final re-query subscripts
    [embeddings] with it and the call raises [KeyError]. *)
Theorem missing_last_embedding_raises :
  filter_by_categories stable_sorter demo_searcher seed_only_embeddings
    ["basic"; "income"] None None []
  = (Raised (KeyError "income"),
     [{| query_embedding := basic_embedding;
         category := "basic";
         top_k := 10000;
         filter_mb_sns := None;
         metadata_filter := Some [] |}]).
Proof. vm_compute. reflexivity. Qed.

(** C3: the candidate set becomes empty in the second stage.  The result
    is empty, but the final re-query is still issued, with [top_k = 0] and
    the empty allow-list. *)
Theorem empty_candidates_still_queried :
  filter_by_categories stable_sorter seed_only_searcher demo_embeddings
    ["basic"; "income"] None None []
  = (Returned [],
     [{| query_embedding := basic_embedding;
         category := "basic";
         top_k := 10000;
         filter_mb_sns := None;
         metadata_filter := Some [] |};
      {| query_embedding := income_embedding;
         category := "income";
         top_k := 2;
         filter_mb_sns := Some ["p1"];
         metadata_filter := Some [] |};
      {| query_embedding := income_embedding;
         category := "income";
         top_k := 0;
         filter_mb_sns := Some [];
         metadata_filter := None |}]).
Proof. vm_compute. reflexivity. Qed.

(** C4: a record without a ["score"] field in the seeding response, no
    metadata filter.  The sort key [x["score"]] raises [KeyError]; with a
    metadata filter for the seed category the same response is
    tolerated and the score defaults to 0.0. *)
Theorem scoreless_seed_record_raises :
  fst (filter_by_categories stable_sorter scoreless_searcher demo_embeddings ["basic"]
         None None [])
  = Raised (KeyError "score") /\
  fst (filter_by_categories stable_sorter scoreless_searcher demo_embeddings ["basic"]
         None (Some (<["basic" := [("age_min", "30")]]> ∅)) [])
  = Returned [mk_panel "p1" (Num 0)].
Proof. split; vm_compute; reflexivity. Qed.

Lemma no_seed_no_call_witness :
  filter_by_categories stable_sorter demo_searcher demo_embeddings ["vehicle"; "basic"]
    (Some 5) None [] = (Returned [], []).
Proof.
  apply no_seed_no_call. right. exists "vehicle", ["basic"].
  split; [reflexivity | vm_compute; reflexivity].
Defined.

Lemma seeding_without_identifiers_witness :
  filter_by_categories stable_sorter
    (fun _ _ => [{| rec_mb_sn := Some ""; rec_score := None |};
                 {| rec_mb_sn := None; rec_score := Some (Num (1 # 2)) |}])
    demo_embeddings ("basic" :: ["income"]) (Some 3) None []
  = (Returned [], [seed_call (Some 3) None "basic" basic_embedding]).
Proof.
  apply (seeding_without_identifiers stable_sorter _ demo_embeddings "basic" ["income"]
           (Some 3) None basic_embedding []).
  - vm_compute. reflexivity.
  - intros r Hr. apply elem_of_cons in Hr as [-> | Hr]; [reflexivity |].
    apply list_elem_of_singleton in Hr as ->. reflexivity.
Defined.

Lemma seeding_keeps_every_identifier_witness :
  NoDup ["p1"; "p2"; "p3"] /\
  forall id,
    id ∈ ["p1"; "p2"; "p3"] <->
    id <> "" /\
    exists r, r ∈ demo_searcher [] (seed_call None None "basic" basic_embedding)
              /\ names r id.
Proof.
  apply (seeding_keeps_every_identifier stable_sorter demo_searcher None "basic"
           basic_embedding []
           [seed_call None None "basic" basic_embedding]).
  vm_compute. reflexivity.
Defined.

Lemma allow_lists_from_seed_witness :
  NoDup ["p3"; "p1"; "p2"] /\
  forall id, id ∈ ["p3"; "p1"; "p2"] ->
    id <> "" /\
    exists r, r ∈ demo_searcher []
                    (seed_call (Some 2) None "basic" basic_embedding) /\
              names r id.
Proof.
  apply (allow_lists_from_seed stable_sorter demo_searcher demo_embeddings "basic"
           ["income"] (Some 2) None basic_embedding []
           (final_call "income" income_embedding ["p3"; "p1"; "p2"])).
  - vm_compute. reflexivity.
  - vm_compute. do 2 apply list_elem_of_further. apply list_elem_of_here.
  - reflexivity.
Defined.

Lemma result_from_seed_response_witness :
  exists c rest e,
    ["basic"; "income"] = c :: rest /\ demo_embeddings !! c = Some e /\
    mb_sn (mk_panel "p3" (Num (65 # 100))) <> "" /\
    exists r, r ∈ demo_searcher [] (seed_call (Some 2) None c e) /\
              names r (mb_sn (mk_panel "p3" (Num (65 # 100)))).
Proof.
  apply (result_from_seed_response stable_sorter demo_searcher demo_embeddings
           ["basic"; "income"] (Some 2) None []
           (snd (filter_by_categories stable_sorter demo_searcher demo_embeddings
                   ["basic"; "income"] (Some 2) None []))
           [mk_panel "p3" (Num (65 # 100)); mk_panel "p1" (Num (4 # 10))]).
  - vm_compute. reflexivity.
  - apply list_elem_of_here.
Defined.

Lemma result_length_bound_witness :
  Z.of_nat (length [mk_panel "p3" (Num (65 # 100)); mk_panel "p1" (Num (4 # 10))]) <= 2.
Proof.
  apply (result_length_bound stable_sorter demo_searcher demo_embeddings
           ["basic"; "income"] 2 None []
           (snd (filter_by_categories stable_sorter demo_searcher demo_embeddings
                   ["basic"; "income"] (Some 2) None []))).
  - lia.
  - vm_compute. reflexivity.
Defined.

Lemma seeding_truncation_idle_witness :
  seed_unfiltered stable_sorter (Some 1) (demo_searcher [] (seed_call (Some 1) None "basic"
                                                basic_embedding))
  = seed_unfiltered stable_sorter None (demo_searcher [] (seed_call (Some 1) None "basic"
                                              basic_embedding)).
Proof.
  apply seeding_truncation_idle. simpl. lia.
Defined.

Lemma refinement_truncation_idle_witness :
  rescore_unfiltered stable_sorter (Some 1) ["p1"; "p2"; "p3"]
    (demo_searcher [] (stage_call (Some 1) None "income" income_embedding
                         ["p1"; "p2"; "p3"]))
  = rescore_unfiltered stable_sorter None ["p1"; "p2"; "p3"]
      (demo_searcher [] (stage_call (Some 1) None "income" income_embedding
                           ["p1"; "p2"; "p3"])).
Proof.
  apply refinement_truncation_idle. simpl. lia.
Defined.

Lemma refinement_keeps_named_candidates_witness :
  "" ∉ ["p1"; "p2"; "p3"] /\
  forall id,
    id ∈ ["p3"; "p1"; "p2"] <->
    id ∈ ["p1"; "p2"; "p3"] /\
    exists r, r ∈ demo_searcher []
                    (stage_call None None "income" income_embedding
                       ["p1"; "p2"; "p3"]) /\
              names r id.
Proof.
  assert (Hempty : "" ∉ ["p1"; "p2"; "p3"]).
  { intros H. by repeat (apply elem_of_cons in H as [H | H]; [done |]);
      apply elem_of_nil in H. }
  split; [exact Hempty |].
  apply (refinement_keeps_named_candidates stable_sorter demo_searcher None "income"
           income_embedding ["p1"; "p2"; "p3"] []
           [stage_call None None "income" income_embedding ["p1"; "p2"; "p3"]]
           ["p3"; "p1"; "p2"] Hempty).
  vm_compute. reflexivity.
Defined.

Lemma seeding_orders_by_best_score_witness :
  exists scored : list (string * pyfloat),
    ["p1"; "p2"; "p3"] = map fst scored /\
    StronglySorted (desc snd) scored /\
    forall id s, (id, s) ∈ scored ->
      (exists r, r ∈ demo_searcher []
                       (seed_call (Some 2) None "basic" basic_embedding) /\
                 names r id /\ get_score r = s) /\
      (forall r, r ∈ demo_searcher []
                       (seed_call (Some 2) None "basic" basic_embedding) ->
                 names r id -> float_geb s (get_score r) = true).
Proof.
  apply (seeding_orders_by_best_score stable_sorter demo_searcher (Some 2)
           None "basic" basic_embedding []
           [seed_call (Some 2) None "basic" basic_embedding]).
  - apply demo_searcher_nan_free.
  - vm_compute. reflexivity.
Defined.

